(** * The Codex dual-window bridge (lib/codex_dual_bridge.py)

    A shallow embedding of the bridge: the command normalisation of
    [TerminalCodexSession.send], the request dispatcher
    [DualBridge._process_request], the channel reader
    [DualBridge._read_request], the two loggers and the loop of
    [DualBridge.run] with its error backoff.

    Conventions of the embedding.
    - A Python [str] is a [string] of bytes (UTF-8); the prefixes of the
      console messages are kept byte for byte as the source file has
      them.  Whitespace is the ASCII whitespace of [str.isspace].
    - A value decoded by [json.loads] is a [json]; Python's [None] is
      [JNull].  [json.loads] and [float] belong to the Python library and
      are parameters of the model; [json.dumps] of a decoded value does
      not fail and its text is kept in parsed form.
    - Durations ([time.sleep] arguments, the three [_env_float] settings)
      are Python floats in the source.  [_env_float] only lets
      non-negative, non-NaN values through, and the loop only compares
      them and doubles them; doubling is exact in binary64 below overflow,
      and an overflowing double is cut back to the maximum by the same
      [min].  They are modelled as rationals [Q].
    - The outside world (the FIFO, the two log files, the terminal
      backend of the [terminal] module, the clock, signals) is a record
      [world]: a script of what each resource will answer next, and the
      effects observed so far.  Code runs in a state-and-exception monad
      [M] over it.  Files fail with instances of [Exception]; the backend
      may raise anything; [print] and [time.sleep] do not fail.
    - The loop of [run] is cut after a given number of iterations. *)

From Stdlib Require Import String Ascii List Bool ZArith NArith QArith Qminmax.
From Stdlib Require Import DecimalString DecimalN Lia Lqa Sorted Relations.

Set Warnings "-register-all".
Import ListNotations.

Local Open Scope list_scope.
Local Open Scope string_scope.

(** ** Python values *)

(** What [json.loads] can return. *)
Inductive json : Type :=
| JNull
| JBool (b : bool)
| JInt (n : Z)
| JFloat (q : Q)
| JStr (s : string)
| JArr (items : list json)
| JObj (fields : list (string * json)).

(** Truth value of a float: [if seconds:]. *)
Definition nonzero (seconds : Q) : bool := negb (Qeq_bool seconds 0).

(** Python truth value of a decoded value ([bool(v)]). *)
Definition truthy (v : json) : bool :=
  match v with
  | JNull => false
  | JBool b => b
  | JInt n => negb (n =? 0)%Z
  | JFloat q => nonzero q
  | JStr s => negb (s =? "")
  | JArr items => match items with [] => false | _ => true end
  | JObj fields => match fields with [] => false | _ => true end
  end.

(** [type(v).__name__], as it appears in an [AttributeError] message. *)
Definition type_name (v : json) : string :=
  match v with
  | JNull => "NoneType"
  | JBool _ => "bool"
  | JInt _ => "int"
  | JFloat _ => "float"
  | JStr _ => "str"
  | JArr _ => "list"
  | JObj _ => "dict"
  end.

(** [d.get(key)] on a dict given by its items: [None] when the key is
    missing. *)
Fixpoint dict_lookup (key : string) (d : list (string * json)) : option json :=
  match d with
  | [] => None
  | (k, v) :: rest => if k =? key then Some v else dict_lookup key rest
  end.

(** [d.get(key, default)]. *)
Definition dict_get (d : list (string * json)) (key : string) (default : json) : json :=
  match dict_lookup key d with
  | Some v => v
  | None => default
  end.


(** ** Strings *)

Definition CR : ascii := ascii_of_nat 13.
Definition LF : ascii := ascii_of_nat 10.
Definition SP : ascii := " "%char.

(** [s.replace(old, new)] for one-character [old] and [new]. *)
Fixpoint replace (old new : ascii) (s : string) : string :=
  match s with
  | EmptyString => EmptyString
  | String c rest =>
      String (if Ascii.eqb c old then new else c) (replace old new rest)
  end.

(** [str.isspace] on the ASCII range: tab, LF, VT, FF, CR, the four
    separators 0x1c-0x1f and the space. *)
Definition isspace (c : ascii) : bool :=
  let n := nat_of_ascii c in
  ((9 <=? n) && (n <=? 13) || (28 <=? n) && (n <=? 32))%nat.

Fixpoint lstrip (s : string) : string :=
  match s with
  | EmptyString => EmptyString
  | String c rest => if isspace c then lstrip rest else s
  end.

(** [rstrip]: a character is dropped when it is a space and everything
    after it has been dropped. *)
Fixpoint rstrip (s : string) : string :=
  match s with
  | EmptyString => EmptyString
  | String c rest =>
      match rstrip rest with
      | EmptyString => if isspace c then EmptyString else String c EmptyString
      | kept => String c kept
      end
  end.

Definition strip (s : string) : string := rstrip (lstrip s).


(** A decimal digit, and a non-empty run of them. *)
Definition isdigit (c : ascii) : bool :=
  let n := nat_of_ascii c in ((48 <=? n) && (n <=? 57))%nat.

Fixpoint all_digits (s : string) : bool :=
  match s with
  | EmptyString => true
  | String c rest => isdigit c && all_digits rest
  end.

Definition digits (s : string) : bool :=
  negb (s =? "") && all_digits s.

(** The command [send] builds from the text:
    [text.replace("\r", " ").replace("\n", " ").strip()]. *)
Definition normalize (text : string) : string :=
  strip (replace LF SP (replace CR SP text)).

(** [str(n)] for a non-negative integer. *)
Definition str_of_N (n : N) : string := NilZero.string_of_uint (N.to_uint n).

(** ** Exceptions *)

(** The exception classes the bridge tells apart. *)
Inductive pyclass : Type :=
| OSError
| JSONDecodeError
| ValueError
| AttributeError
| RuntimeError.

Definition pyclass_eqb (a b : pyclass) : bool :=
  match a, b with
  | OSError, OSError
  | JSONDecodeError, JSONDecodeError
  | ValueError, ValueError
  | AttributeError, AttributeError
  | RuntimeError, RuntimeError => true
  | _, _ => false
  end.

(** An instance of [Exception]: its class and its [str(exc)]. *)
Record exception : Type := Exception { cls : pyclass; str_exc : string }.

(** Whatever a [raise] can throw: an [Exception] instance, or one of the
    two [BaseException]s that [except Exception] lets through. *)
Inductive raised : Type :=
| Exc (e : exception)
| KeyboardInterrupt
| SystemExit.

(** [isinstance(e, classes)]. *)
Definition isinstance (e : exception) (classes : list pyclass) : bool :=
  existsb (pyclass_eqb (cls e)) classes.

(** ** The files and the world *)

(** One line of history/session.jsonl, before serialisation. *)
Record HistoryEntry : Type := {
  timestamp : string;
  role : string;
  marker : json;
  content : json
}.

(** The message of a bridge.log line: the per-request echo is the
    [json.dumps] of a three-key dict and is kept in parsed form. *)
Inductive log_message : Type :=
| LogQuestion (marker question : json) (time : string)
| LogText (text : string).

Record BridgeLogLine : Type := { log_time : string; log_text : log_message }.

(** What the clock shows at one reading: [int(time.time())],
    [datetime.now().strftime(...)] and
    [datetime.now(timezone.utc).isoformat()]. *)
Record time_reading : Type := {
  unix_seconds : N;
  local_stamp : string;
  utc_stamp : string
}.

Definition epoch : time_reading :=
  {| unix_seconds := 0;
     local_stamp := "1970-01-01 00:00:00";
     utc_stamp := "1970-01-01T00:00:00+00:00" |}.

(** What one poll of input.fifo meets. *)
Inductive fifo_outcome : Type :=
| FifoMissing                  (* [exists()] is false *)
| FifoRaises (e : exception)   (* [open] or [readline] raises *)
| FifoLine (line : string).    (* [readline] returns; [""] at end of file *)

(** The bridge object and its environment.  The [*_script] fields say
    what each resource answers to the next calls (an exhausted script
    answers with the quiet default: no FIFO, a successful write, a
    successful send, the epoch, no signal); the other fields are what
    the bridge has done so far. *)
Record world : Type := {
  environ : list (string * string);
  pid : N;
  pane_id : string;
  fifo_script : list fifo_outcome;
  history_script : list (option exception);
  log_script : list (option exception);
  backend_script : list (option raised);
  clock_script : list time_reading;
  signal_script : list (option Z);
  history_file : list HistoryEntry;
  bridge_log : list BridgeLogLine;
  console : list string;
  backend_calls : list (string * string);
  slept : list Q;
  _running : bool
}.

Definition set_fifo_script (x : list fifo_outcome) (w : world) : world :=
  {| environ := environ w; pid := pid w; pane_id := pane_id w;
     fifo_script := x; history_script := history_script w;
     log_script := log_script w; backend_script := backend_script w;
     clock_script := clock_script w; signal_script := signal_script w;
     history_file := history_file w; bridge_log := bridge_log w;
     console := console w; backend_calls := backend_calls w;
     slept := slept w; _running := _running w |}.

Definition set_history_script (x : list (option exception)) (w : world) : world :=
  {| environ := environ w; pid := pid w; pane_id := pane_id w;
     fifo_script := fifo_script w; history_script := x;
     log_script := log_script w; backend_script := backend_script w;
     clock_script := clock_script w; signal_script := signal_script w;
     history_file := history_file w; bridge_log := bridge_log w;
     console := console w; backend_calls := backend_calls w;
     slept := slept w; _running := _running w |}.

Definition set_log_script (x : list (option exception)) (w : world) : world :=
  {| environ := environ w; pid := pid w; pane_id := pane_id w;
     fifo_script := fifo_script w; history_script := history_script w;
     log_script := x; backend_script := backend_script w;
     clock_script := clock_script w; signal_script := signal_script w;
     history_file := history_file w; bridge_log := bridge_log w;
     console := console w; backend_calls := backend_calls w;
     slept := slept w; _running := _running w |}.

Definition set_backend_script (x : list (option raised)) (w : world) : world :=
  {| environ := environ w; pid := pid w; pane_id := pane_id w;
     fifo_script := fifo_script w; history_script := history_script w;
     log_script := log_script w; backend_script := x;
     clock_script := clock_script w; signal_script := signal_script w;
     history_file := history_file w; bridge_log := bridge_log w;
     console := console w; backend_calls := backend_calls w;
     slept := slept w; _running := _running w |}.

Definition set_clock_script (x : list time_reading) (w : world) : world :=
  {| environ := environ w; pid := pid w; pane_id := pane_id w;
     fifo_script := fifo_script w; history_script := history_script w;
     log_script := log_script w; backend_script := backend_script w;
     clock_script := x; signal_script := signal_script w;
     history_file := history_file w; bridge_log := bridge_log w;
     console := console w; backend_calls := backend_calls w;
     slept := slept w; _running := _running w |}.

Definition set_signal_script (x : list (option Z)) (w : world) : world :=
  {| environ := environ w; pid := pid w; pane_id := pane_id w;
     fifo_script := fifo_script w; history_script := history_script w;
     log_script := log_script w; backend_script := backend_script w;
     clock_script := clock_script w; signal_script := x;
     history_file := history_file w; bridge_log := bridge_log w;
     console := console w; backend_calls := backend_calls w;
     slept := slept w; _running := _running w |}.

Definition set_history_file (x : list HistoryEntry) (w : world) : world :=
  {| environ := environ w; pid := pid w; pane_id := pane_id w;
     fifo_script := fifo_script w; history_script := history_script w;
     log_script := log_script w; backend_script := backend_script w;
     clock_script := clock_script w; signal_script := signal_script w;
     history_file := x; bridge_log := bridge_log w;
     console := console w; backend_calls := backend_calls w;
     slept := slept w; _running := _running w |}.

Definition set_bridge_log (x : list BridgeLogLine) (w : world) : world :=
  {| environ := environ w; pid := pid w; pane_id := pane_id w;
     fifo_script := fifo_script w; history_script := history_script w;
     log_script := log_script w; backend_script := backend_script w;
     clock_script := clock_script w; signal_script := signal_script w;
     history_file := history_file w; bridge_log := x;
     console := console w; backend_calls := backend_calls w;
     slept := slept w; _running := _running w |}.

Definition set_console (x : list string) (w : world) : world :=
  {| environ := environ w; pid := pid w; pane_id := pane_id w;
     fifo_script := fifo_script w; history_script := history_script w;
     log_script := log_script w; backend_script := backend_script w;
     clock_script := clock_script w; signal_script := signal_script w;
     history_file := history_file w; bridge_log := bridge_log w;
     console := x; backend_calls := backend_calls w;
     slept := slept w; _running := _running w |}.

Definition set_backend_calls (x : list (string * string)) (w : world) : world :=
  {| environ := environ w; pid := pid w; pane_id := pane_id w;
     fifo_script := fifo_script w; history_script := history_script w;
     log_script := log_script w; backend_script := backend_script w;
     clock_script := clock_script w; signal_script := signal_script w;
     history_file := history_file w; bridge_log := bridge_log w;
     console := console w; backend_calls := x;
     slept := slept w; _running := _running w |}.

Definition set_slept (x : list Q) (w : world) : world :=
  {| environ := environ w; pid := pid w; pane_id := pane_id w;
     fifo_script := fifo_script w; history_script := history_script w;
     log_script := log_script w; backend_script := backend_script w;
     clock_script := clock_script w; signal_script := signal_script w;
     history_file := history_file w; bridge_log := bridge_log w;
     console := console w; backend_calls := backend_calls w;
     slept := x; _running := _running w |}.

Definition set_running (x : bool) (w : world) : world :=
  {| environ := environ w; pid := pid w; pane_id := pane_id w;
     fifo_script := fifo_script w; history_script := history_script w;
     log_script := log_script w; backend_script := backend_script w;
     clock_script := clock_script w; signal_script := signal_script w;
     history_file := history_file w; bridge_log := bridge_log w;
     console := console w; backend_calls := backend_calls w;
     slept := slept w; _running := x |}.

(** ** The monad: state and Python exceptions *)

Inductive outcome (A : Type) : Type :=
| Ret (a : A)
| Raise (r : raised).

Arguments Ret {A} a.
Arguments Raise {A} r.

Definition M (A : Type) : Type := world -> outcome A * world.

Definition ret {A : Type} (a : A) : M A := fun w => (Ret a, w).

Definition raise {A : Type} (r : raised) : M A := fun w => (Raise r, w).

Definition bind {A B : Type} (m : M A) (k : A -> M B) : M B :=
  fun w =>
    match m w with
    | (Ret a, w') => k a w'
    | (Raise r, w') => (Raise r, w')
    end.

Declare Scope py_scope.
Delimit Scope py_scope with py.

Notation "x <- m ;; k" := (bind m (fun x => k))
  (at level 100, m at next level, right associativity) : py_scope.
Notation "m ;; k" := (bind m (fun _ => k))
  (at level 100, right associativity) : py_scope.

Local Open Scope py_scope.

(** [try: body  except <classes> as exc: handler exc], where [catches]
    is the [isinstance] test of the except clause.  Only an [Exception]
    instance can be caught; [KeyboardInterrupt] and [SystemExit] pass. *)
Definition try_except {A : Type} (body : M A) (catches : exception -> bool)
    (handler : exception -> M A) : M A :=
  fun w =>
    match body w with
    | (Raise (Exc e), w') =>
        if catches e then handler e w' else (Raise (Exc e), w')
    | other => other
    end.

(** [except Exception]. *)
Definition any_Exception (e : exception) : bool := true.

(** ** What the world offers *)

(** Each resource answers with the head of its script ([hd] gives the
    quiet default on an exhausted script) and moves on to the tail. *)

(** One reading of the clock. *)
Definition now : M time_reading :=
  fun w => (Ret (hd epoch (clock_script w)), set_clock_script (tl (clock_script w)) w).

(** [time.sleep(seconds)]. *)
Definition sleep (seconds : Q) : M unit :=
  fun w => (Ret tt, set_slept (slept w ++ [seconds])%list w).

(** [self.history_file.open("a")]. *)
Definition open_history : M unit :=
  fun w =>
    let w' := set_history_script (tl (history_script w)) w in
    match hd None (history_script w) with
    | None => (Ret tt, w')
    | Some e => (Raise (Exc e), w')
    end.

(** [json.dump(entry, handle); handle.write("\n")]. *)
Definition write_history (entry : HistoryEntry) : M unit :=
  fun w => (Ret tt, set_history_file (history_file w ++ [entry])%list w).

(** [self.bridge_log.open("a")]. *)
Definition open_bridge_log : M unit :=
  fun w =>
    let w' := set_log_script (tl (log_script w)) w in
    match hd None (log_script w) with
    | None => (Ret tt, w')
    | Some e => (Raise (Exc e), w')
    end.

(** [handle.write(line)] on bridge.log. *)
Definition write_bridge_log (line : BridgeLogLine) : M unit :=
  fun w => (Ret tt, set_bridge_log (bridge_log w ++ [line])%list w).

(** Modelled from the spec: [send_text] of [TmuxBackend] and
    [WeztermBackend], whose module [terminal] is not among the sources.
    It is the capability "send text to an addressed destination",
    which may fail: the call is recorded and the world says whether it
    succeeds. *)
Definition send_text (pane command : string) : M unit :=
  fun w =>
    let w' := set_backend_calls (backend_calls w ++ [(pane, command)])%list
                (set_backend_script (tl (backend_script w)) w) in
    match hd None (backend_script w) with
    | None => (Ret tt, w')
    | Some r => (Raise r, w')
    end.

(** ** The bridge *)

Definition sender : string := "claude".
Definition target : string := "codex".

Definition fail_prefix : string := "âŒ Failed to send to Codex: ".
Definition history_fail_prefix : string := "âš ï¸ Failed to write history: ".
Definition process_fail_prefix : string := "âŒ Failed to process message: ".
Definition started_message : string :=
  "ðŸ”Œ Codex bridge started, waiting for Claude commands...".
Definition exited_message : string := "ðŸ‘‹ Codex bridge exited".
Definition signal_prefix : string := "âš ï¸ Received signal ".
Definition signal_suffix : string := ", exiting...".

(** [str(n)] for an [int]. *)
Definition str_of_Z (n : Z) : string :=
  match n with
  | Zneg p => "-" ++ str_of_N (Npos p)
  | _ => str_of_N (Z.to_N n)
  end.

(** [DualBridge._log_console]: [print(message, flush=True)]. *)
Definition _log_console (message : string) : M unit :=
  fun w => (Ret tt, set_console (console w ++ [message])%list w).

(** [DualBridge._timestamp]. *)
Definition _timestamp : M string :=
  t <- now ;; ret (local_stamp t).

(** [f"ask-{seconds}-{process_id}"]. *)
Definition marker_text (seconds process_id : N) : string :=
  "ask-" ++ str_of_N seconds ++ "-" ++ str_of_N process_id.

(** [DualBridge._generate_marker], with [int(time.time())] read off
    the clock and [os.getpid()] off the world. *)
Definition _generate_marker : M string :=
  t <- now ;;
  fun w => (Ret (marker_text (unix_seconds t) (pid w)), w).

(** [DualBridge._log_bridge]. *)
Definition _log_bridge (message : log_message) : M unit :=
  try_except
    (open_bridge_log ;;
     stamp <- _timestamp ;;
     write_bridge_log {| log_time := stamp; log_text := message |})
    any_Exception
    (fun _ => ret tt).

(** [DualBridge._append_history]. *)
Definition _append_history (role : string) (content marker : json) : M unit :=
  t <- now ;;
  let entry := {| timestamp := utc_stamp t; role := role;
                  marker := marker; content := content |} in
  try_except
    (open_history ;; write_history entry)
    any_Exception
    (fun exc => _log_console (history_fail_prefix ++ str_exc exc)).

(** Looking up an attribute the value does not have. *)
Definition no_attribute (v : json) (attr : string) : raised :=
  Exc (Exception AttributeError
         ("'" ++ type_name v ++ "' object has no attribute '" ++ attr ++ "'")).

(** [TerminalCodexSession.send]. *)
Definition send (text : json) : M unit :=
  match text with
  | JStr s =>
      let command := normalize s in
      if truthy (JStr command)
      then fun w => send_text (pane_id w) command w
      else ret tt
  | _ => raise (no_attribute text "replace")
  end.

(** [payload.get("marker") or self._generate_marker()]. *)
Definition resolve_marker (d : list (string * json)) : M json :=
  let provided := dict_get d "marker" JNull in
  if truthy provided then ret provided
  else generated <- _generate_marker ;; ret (JStr generated).

(** [DualBridge._process_request]. *)
Definition _process_request (payload : json) : M unit :=
  match payload with
  | JObj d =>
      let content := dict_get d "content" (JStr "") in
      marker <- resolve_marker d ;;
      timestamp <- _timestamp ;;
      _log_bridge (LogQuestion marker content timestamp) ;;
      _append_history sender content marker ;;
      try_except (send content) any_Exception
        (fun exc =>
           let msg := fail_prefix ++ str_exc exc in
           _append_history target (JStr msg) marker ;;
           _log_console msg)
  | _ => raise (no_attribute payload "get")
  end.

(** [DualBridge._handle_signal]. *)
Definition _handle_signal (signum : Z) : M unit :=
  (fun w => (Ret tt, set_running false w)) ;;
  _log_console (signal_prefix ++ str_of_Z signum ++ signal_suffix).

(** ** The channel reader and the loop *)

(** The settings [run] reads with [_env_float]. *)
Record config : Type := {
  idle_sleep : Q;
  error_backoff_min : Q;
  error_backoff_max : Q
}.

(** [max(0.0, min(error_backoff_min, error_backoff_max))]: the value
    [error_backoff] starts from and returns to after a dispatch. *)
Definition reset_backoff (cfg : config) : Q :=
  Qmax 0 (Qmin (error_backoff_min cfg) (error_backoff_max cfg)).

(** [min(error_backoff_max, max(error_backoff_min, error_backoff * 2))]. *)
Definition grow_backoff (cfg : config) (error_backoff : Q) : Q :=
  Qmin (error_backoff_max cfg) (Qmax (error_backoff_min cfg) (error_backoff * 2)).

(** [self.input_fifo.exists()]; a missing FIFO uses up its answer. *)
Definition fifo_exists : M bool :=
  fun w =>
    match hd FifoMissing (fifo_script w) with
    | FifoMissing => (Ret false, set_fifo_script (tl (fifo_script w)) w)
    | _ => (Ret true, w)
    end.

(** [open("r")] and [readline()] on the FIFO. *)
Definition fifo_readline : M string :=
  fun w =>
    let w' := set_fifo_script (tl (fifo_script w)) w in
    match hd FifoMissing (fifo_script w) with
    | FifoLine line => (Ret line, w')
    | FifoRaises e => (Raise (Exc e), w')
    | FifoMissing => (Raise (Exc (Exception OSError "No such file or directory")), w')
    end.

(** Signals are delivered between two iterations of the loop. *)
Definition deliver_signal : M unit :=
  fun w =>
    let w' := set_signal_script (tl (signal_script w)) w in
    match hd None (signal_script w) with
    | None => (Ret tt, w')
    | Some signum => _handle_signal signum w'
    end.

Section Bridge.

(** [json.loads]: the decoded value, or [None] for a line that makes
    it raise [JSONDecodeError]. *)
Variable json_loads : string -> option json.

(** [float(raw)]: [None] when it raises [ValueError]. *)
Variable float : string -> option Q.

Definition loads (line : string) : M json :=
  match json_loads line with
  | Some v => ret v
  | None => raise (Exc (Exception JSONDecodeError "Expecting value"))
  end.

(** [_env_float]. *)
Definition _env_float (name : string) (default : Q) : M Q :=
  fun w =>
    match find (fun kv => fst kv =? name) (environ w) with
    | None => (Ret default, w)
    | Some (_, raw) =>
        match float raw with
        | None => (Ret default, w)
        | Some value => (Ret (Qmax 0 value), w)
        end
    end.

(** [DualBridge._read_request]. *)
Definition _read_request : M json :=
  present <- fifo_exists ;;
  if negb present then ret JNull
  else
    try_except
      (line <- fifo_readline ;;
       if line =? "" then ret JNull else loads line)
      (fun e => isinstance e [OSError; JSONDecodeError])
      (fun _ => ret JNull).

(** The [try] block of the loop; it yields the next [error_backoff]. *)
Definition attempt (cfg : config) (error_backoff : Q) : M Q :=
  payload <- _read_request ;;
  match payload with
  | JNull =>
      (if nonzero (idle_sleep cfg) then sleep (idle_sleep cfg) else ret tt) ;;
      ret error_backoff
  | _ =>
      _process_request payload ;;
      ret (reset_backoff cfg)
  end.

(** The [except Exception as exc] clause of the loop. *)
Definition on_error (cfg : config) (error_backoff : Q) (exc : exception) : M Q :=
  _log_console (process_fail_prefix ++ str_exc exc) ;;
  _log_bridge (LogText ("error: " ++ str_exc exc)) ;;
  (if nonzero error_backoff then sleep error_backoff else ret tt) ;;
  ret (if nonzero (error_backoff_max cfg)
       then grow_backoff cfg error_backoff
       else error_backoff).

(** One iteration of [while self._running]. *)
Definition loop_body (cfg : config) (error_backoff : Q) : M Q :=
  fun w =>
    match attempt cfg error_backoff w with
    | (Raise KeyboardInterrupt, w') => (Ret error_backoff, set_running false w')
    | (Raise (Exc exc), w') => on_error cfg error_backoff exc w'
    | other => other
    end.

(** At most [fuel] iterations of the loop. *)
Fixpoint while_running (fuel : nat) (cfg : config) (error_backoff : Q) : M Q :=
  match fuel with
  | O => ret error_backoff
  | S fuel' =>
      deliver_signal ;;
      fun w =>
        if _running w
        then (error_backoff' <- loop_body cfg error_backoff ;;
              while_running fuel' cfg error_backoff') w
        else (Ret error_backoff, w)
  end.

Definition settings : M config :=
  idle <- _env_float "CCB_BRIDGE_IDLE_SLEEP" (1 # 20) ;;
  lo <- _env_float "CCB_BRIDGE_ERROR_BACKOFF_MIN" (1 # 20) ;;
  hi <- _env_float "CCB_BRIDGE_ERROR_BACKOFF_MAX" (1 # 5) ;;
  ret {| idle_sleep := idle; error_backoff_min := lo; error_backoff_max := hi |}.

(** [DualBridge.run], cut after [fuel] iterations: [Some 0] is the
    exit status, [None] a loop that is still running. *)
Definition run (fuel : nat) : M (option Z) :=
  _log_console started_message ;;
  cfg <- settings ;;
  while_running fuel cfg (reset_backoff cfg) ;;
  fun w =>
    if _running w then (Ret None, w)
    else (_log_console exited_message ;; ret (Some 0%Z)) w.

(** An iteration of [while_running] that ends in the error handler:
    the loop is still running after the signals are delivered, the
    [try] block raises an exception, and the iteration leaves the
    backoff and the world in the second state. *)
Definition fails (cfg : config) (before after : Q * world) : Prop :=
  exists (exc : exception) (ws w1 : world),
    deliver_signal (snd before) = (Ret tt, ws)
    /\ _running ws = true
    /\ attempt cfg (fst before) ws = (Raise (Exc exc), w1)
    /\ loop_body cfg (fst before) ws = (Ret (fst after), snd after).

(** Any number of such iterations in a row. *)
Definition fails_in_a_row (cfg : config) : Q * world -> Q * world -> Prop :=
  clos_refl_trans_1n (Q * world) (fails cfg).

End Bridge.

(** ** Reading the effects *)

(** What an append leaves in session.jsonl, given the answer of the
    file: the entry when the write succeeds, nothing when it fails. *)
Definition appended (answer : option exception) (entry : HistoryEntry)
    : list HistoryEntry :=
  match answer with
  | None => [entry]
  | Some _ => []
  end.

(** What a history append prints on the console: the complaint of
    [_append_history] when the write fails. *)
Definition complaint (answer : option exception) : list string :=
  match answer with
  | None => []
  | Some e => [history_fail_prefix ++ str_exc e]
  end.

(** The bounds the loop keeps [error_backoff] in. *)
Definition in_bounds (cfg : config) (error_backoff : Q) : Prop :=
  Qmin (error_backoff_min cfg) (error_backoff_max cfg) <= error_backoff
  /\ error_backoff <= error_backoff_max cfg.

(** Two sleeps in a row: the second is no shorter than the first and
    at most its double. *)
Definition at_most_doubled (previous current : Q) : Prop :=
  previous <= current /\ current <= previous * 2.

(** ** Worlds to run the bridge in *)

(** Nothing scripted: no FIFO, every write and send succeeds. *)
Definition quiet : world :=
  {| environ := []; pid := 4242; pane_id := "%1";
     fifo_script := []; history_script := []; log_script := [];
     backend_script := []; clock_script := []; signal_script := [];
     history_file := []; bridge_log := []; console := [];
     backend_calls := []; slept := []; _running := true |}.

Definition hello_nl_world : string := "hello" ++ String LF "world".

(** The request of scenario 1: content [hello\nworld], marker [m1]. *)
Definition scenario1 : json :=
  JObj [("content", JStr hello_nl_world); ("marker", JStr "m1")].

(** A request whose marker is the empty string. *)
Definition empty_marker : json :=
  JObj [("content", JStr "x"); ("marker", JStr "")].

Definition boom : exception := Exception RuntimeError "boom".
Definition disk_full : exception := Exception OSError "No space left on device".
Definition bad_utf8 : exception :=
  Exception ValueError "'utf-8' codec can't decode byte 0xff".

(** [json.loads] on a few lines. *)
Definition sample_loads (line : string) : option json :=
  if line =? "{}" then Some (JObj [])
  else if line =? "null" then Some JNull
  else if line =? "5" then Some (JInt 5)
  else None.

(** [float] on a few settings. *)
Definition sample_float (raw : string) : option Q :=
  if raw =? "0.5" then Some (1 # 2)
  else if raw =? "0.2" then Some (1 # 5)
  else if raw =? "0" then Some 0
  else None.

(** A clock that stands at the same second for two readings. *)
Definition same_second : world :=
  set_clock_script
    [ {| unix_seconds := 1700000000; local_stamp := "2023-11-14 22:13:20";
         utc_stamp := "2023-11-14T22:13:20.100000+00:00" |};
      {| unix_seconds := 1700000000; local_stamp := "2023-11-14 22:13:20";
         utc_stamp := "2023-11-14T22:13:20.900000+00:00" |} ]
    quiet.

(** The minimum set above the default maximum of 0.2. *)
Definition min_above_max : world :=
  {| environ := [("CCB_BRIDGE_ERROR_BACKOFF_MIN", "0.5")]; pid := 4242;
     pane_id := "%1";
     fifo_script := [FifoLine "{}"; FifoRaises bad_utf8];
     history_script := []; log_script := [];
     backend_script := []; clock_script := []; signal_script := [];
     history_file := []; bridge_log := []; console := [];
     backend_calls := []; slept := []; _running := true |}.

(** The settings of a process that overrides nothing. *)
Definition defaults : config :=
  {| idle_sleep := 1 # 20; error_backoff_min := 1 # 20;
     error_backoff_max := 1 # 5 |}.

(** Three reads in a row fail, then a request arrives. *)
Definition three_failures : world :=
  set_fifo_script
    [FifoRaises bad_utf8; FifoRaises bad_utf8; FifoRaises bad_utf8; FifoLine "{}"]
    quiet.

(** A request arrives, and the read after it fails. *)
Definition request_then_failure : world :=
  set_fifo_script [FifoLine "{}"; FifoRaises bad_utf8] quiet.

(** The same world once the request is read, and once it is dispatched. *)
Definition request_read : world :=
  set_fifo_script [FifoRaises bad_utf8] quiet.

Definition request_dispatched : world :=
  Eval vm_compute in snd (_process_request (JObj []) request_read).

(** The loop after the request and the failed read. *)
Definition after_request_then_failure : outcome Q * world :=
  Eval vm_compute in
    while_running sample_loads 2 defaults (reset_backoff defaults)
      request_then_failure.

(** A request that is not a JSON object arrives. *)
Definition number_arrives : world := set_fifo_script [FifoLine "5"] quiet.

(** SIGTERM (15) arrives during the second iteration. *)
Definition terminated : world := set_signal_script [None; None; Some 15%Z] quiet.

(** The backend refuses the next command. *)
Definition backend_fails : world :=
  set_backend_script [Some (Exc boom)] quiet.

(** The disk is full for the next write of bridge.log, of session.jsonl. *)
Definition log_fails : world := set_log_script [Some disk_full] quiet.
Definition history_fails : world := set_history_script [Some disk_full] quiet.

(** The loop after the three failed reads of [three_failures]. *)
Definition after_three_failures : outcome Q * world :=
  Eval vm_compute in
    while_running sample_loads 3 defaults (reset_backoff defaults) three_failures.

(** ** The construction of the bridge *)

(** [os.environ.get(name)]. *)
Definition environ_get (environ : list (string * string)) (name : string)
    : option string :=
  option_map snd (find (fun kv => fst kv =? name) environ).









(** ** More on reading the effects *)

(** What a write leaves in bridge.log, given the answer of the file. *)
Definition logged (answer : option exception) (line : BridgeLogLine)
    : list BridgeLogLine :=
  match answer with
  | None => [line]
  | Some _ => []
  end.

(** The second list is the first with more at its end. *)
Definition extends {A : Type} (before after : list A) : Prop :=
  exists added : list A, after = (before ++ added)%list.

(** From [w] to [w'] the files, the console, the calls of the backend
    and the sleeps have only been added to, and the process is the
    same. *)
Definition grows (w w' : world) : Prop :=
  extends (history_file w) (history_file w')
  /\ extends (bridge_log w) (bridge_log w')
  /\ extends (console w) (console w')
  /\ extends (backend_calls w) (backend_calls w')
  /\ extends (slept w) (slept w')
  /\ environ w' = environ w /\ pid w' = pid w /\ pane_id w' = pane_id w.

(** A computation that only adds to the world. *)
Definition only_grows {A : Type} (m : M A) : Prop :=
  forall w : world, grows w (snd (m w)).

(** ** More worlds *)

(** The backend interrupts the request that arrives. *)
Definition interrupted : world :=
  {| environ := []; pid := 4242; pane_id := "%1";
     fifo_script := [FifoLine "hi"]; history_script := []; log_script := [];
     backend_script := [Some KeyboardInterrupt]; clock_script := [];
     signal_script := [];
     history_file := []; bridge_log := []; console := [];
     backend_calls := []; slept := []; _running := true |}.

(** The minimum backoff set to zero, and three reads that fail. *)
Definition zero_minimum : world :=
  {| environ := [("CCB_BRIDGE_ERROR_BACKOFF_MIN", "0")]; pid := 4242;
     pane_id := "%1";
     fifo_script := [FifoRaises bad_utf8; FifoRaises bad_utf8; FifoRaises bad_utf8];
     history_script := []; log_script := [];
     backend_script := []; clock_script := []; signal_script := [];
     history_file := []; bridge_log := []; console := [];
     backend_calls := []; slept := []; _running := true |}.

(** * Properties *)

(** ** Strings and normalisation *)







Lemma append_assoc (a b c : string) : (a ++ b) ++ c = a ++ (b ++ c).
Proof. induction a as [|x a IH]; simpl; [reflexivity|now rewrite IH]. Qed.






(** ** Running the dispatcher symbolically *)

Arguments fail_prefix : simpl never.
Arguments history_fail_prefix : simpl never.
Arguments process_fail_prefix : simpl never.
Arguments normalize : simpl never.
Arguments marker_text : simpl never.
Arguments String.append : simpl never.
Arguments String.eqb : simpl never.
Arguments nonzero : simpl never.
Arguments grow_backoff : simpl never.
Arguments reset_backoff : simpl never.

Ltac unfold_bridge :=
  unfold _process_request, resolve_marker, _generate_marker, _timestamp,
    _log_bridge, _append_history, send, send_text, raise, no_attribute,
    try_except, bind, ret, now, sleep, open_bridge_log, write_bridge_log,
    open_history, write_history, _log_console, any_Exception in *.

(** Split on the innermost scrutinee the goal is stuck on. *)
Ltac split_match :=
  match goal with
  | |- context [match ?x with _ => _ end] =>
      lazymatch x with
      | context [match _ with _ => _ end] => fail
      | _ => destruct x eqn:?
      end
  end.

(** Compare the lists of effects on both sides of a goal; the
    timestamps and the marker are read off the run. *)
Ltac read_effects :=
  repeat match goal with
         | |- _ /\ _ => split
         | |- ex _ => eexists
         end;
  first [ exact JNull | exact ""
        | rewrite <- ?app_assoc; cbn; rewrite ?app_nil_r; reflexivity ].

(** Open an existential; a witness the goal does not depend on is
    arbitrary. *)
Ltac open_ex :=
  lazymatch goal with
  | |- @ex string (fun _ => ?P) => exists ""
  | |- @ex json (fun _ => ?P) => exists JNull
  | |- ex _ => eexists
  end.

Ltac run_bridge := unfold_bridge; cbn; repeat (split_match; cbn in *).

Lemma _log_bridge_returns (message : log_message) (w : world) :
  fst (_log_bridge message w) = Ret tt.
Proof. run_bridge; reflexivity. Qed.

Lemma _append_history_returns (role : string) (content marker : json) (w : world) :
  fst (_append_history role content marker w) = Ret tt.
Proof. run_bridge; reflexivity. Qed.



(** When [send] raises an exception, either the backend did, on a
    non-empty command, or the content was not text. *)
Lemma send_raises (text : json) (w : world) (e : exception) :
  fst (send text w) = Raise (Exc e) ->
  (exists s, text = JStr s /\ negb (normalize s =? "") = true
             /\ hd None (backend_script w) = Some (Exc e))
  \/ ((forall s, text <> JStr s) /\ no_attribute text "replace" = Exc e).
Proof.
  destruct text; cbn;
    try (intros [= <-]; right; split; [discriminate|reflexivity]).
  destruct (negb (normalize s =? "")) eqn:Hn; cbn; [|discriminate].
  unfold send_text.
  destruct (hd None (backend_script w)) as [r|] eqn:Hb; cbn; [|discriminate].
  intros [= ->]. left; eauto.
Qed.

(** ** The dispatcher *)

(** C1.  Dispatch never fails outward: for every request (a dict) and
    every world, no [Exception] leaves [_process_request].  When the
    send step raises an exception [e] (the backend's own, or the one
    [send] raises on a content that is not text), dispatch returns
    normally; the history receives, after the sender entry, an entry of
    role [codex] with the sender entry's marker and the content
    ["<failure prefix>" ++ str(e)] (each entry is in the file when its
    write succeeds); the same message ends the console output; the
    running flag is untouched and nothing sleeps, so the loop goes on.
    The send step touches only the backend, which nothing before it
    uses, so its outcome is read off the initial world. *)
Theorem dispatch_never_fails_outward :
  (forall (d : list (string * json)) (w : world) (e : exception),
      fst (_process_request (JObj d) w) <> Raise (Exc e))
  /\
  (forall (d : list (string * json)) (w : world) (e : exception),
      fst (send (dict_get d "content" (JStr "")) w) = Raise (Exc e) ->
      let w' := snd (_process_request (JObj d) w) in
      let msg := fail_prefix ++ str_exc e in
      fst (_process_request (JObj d) w) = Ret tt
      /\ (exists (m : json) (t1 t2 : string),
             history_file w'
             = (history_file w
                ++ appended (hd None (history_script w))
                     {| timestamp := t1; role := sender; marker := m;
                        content := dict_get d "content" (JStr "") |}
                ++ appended (hd None (tl (history_script w)))
                     {| timestamp := t2; role := target; marker := m;
                        content := JStr msg |})%list)
      /\ console w'
         = (console w ++ complaint (hd None (history_script w))
            ++ complaint (hd None (tl (history_script w))) ++ [msg])%list
      /\ _running w' = _running w
      /\ slept w' = slept w).
Proof.
  split.
  - intros d w e. run_bridge; discriminate.
  - intros d w e Hsend w' msg. subst w' msg.
    apply send_raises in Hsend as [(s & Hc & Hn & Hb)|(Hc & He)].
    + unfold_bridge; cbn. rewrite Hc; cbn. rewrite Hn; cbn.
      repeat (rewrite ?Hb; cbn; split_match; cbn); rewrite ?Hb; cbn.
      all: read_effects.
    + unfold no_attribute in He. injection He as <-.
      unfold_bridge; cbn.
      destruct (dict_get d "content" (JStr "")) eqn:Hd;
        try (exfalso; eapply Hc; reflexivity); cbn;
        repeat (split_match; cbn).
      all: read_effects.
Qed.

Lemma dispatch_never_fails_outward_witness :
  fst (send (dict_get [("content", JStr hello_nl_world); ("marker", JStr "m1")]
               "content" (JStr "")) backend_fails) = Raise (Exc boom)
  /\ fst (_process_request scenario1 backend_fails) = Ret tt.
Proof.
  split; [reflexivity|].
  apply (proj2 dispatch_never_fails_outward
           [("content", JStr hello_nl_world); ("marker", JStr "m1")]
           backend_fails boom).
  reflexivity.
Defined.

(** C4, as stated, fails on a request whose explicit marker is the
    empty string: the sender entry carries a generated marker. *)
Lemma empty_marker_not_preserved :
  let w' := snd (_process_request empty_marker quiet) in
  history_file w'
  = [ {| timestamp := utc_stamp epoch; role := sender;
         marker := JStr "ask-0-4242"; content := JStr "x" |} ]
  /\ ~ (exists entry, In entry (history_file w') /\ role entry = sender
                      /\ marker entry = JStr "").
Proof.
  split; [reflexivity|].
  intros [entry [[<-|[]] [_ Hm]]]. discriminate Hm.
Qed.

(** C4, amended.  For every request that carries a truthy marker (for
    a well-formed request: a non-empty string), the first thing
    dispatch appends to the history is an entry of role [claude] whose
    marker is the provided one and whose content is the content of the
    request as it came, before any normalisation; the entry is in the
    file when the write succeeds.  Whatever follows it is a failure
    report of role [codex]. *)
Theorem explicit_marker_is_recorded :
  forall (d : list (string * json)) (w : world) (m : json),
    dict_lookup "marker" d = Some m ->
    truthy m = true ->
    exists (t : string) (rest : list HistoryEntry),
      history_file (snd (_process_request (JObj d) w))
      = (history_file w
         ++ appended (hd None (history_script w))
              {| timestamp := t; role := sender; marker := m;
                 content := dict_get d "content" (JStr "") |}
         ++ rest)%list
      /\ Forall (fun entry => role entry = target /\ marker entry = m) rest.
Proof.
  intros d w m Hm Ht.
  assert (Hg : dict_get d "marker" JNull = m) by (unfold dict_get; now rewrite Hm).
  unfold_bridge; cbn. rewrite Hg, Ht; cbn.
  repeat (split_match; cbn).
  all: open_ex.
  all: first
    [ exists []; split; [now rewrite ?app_nil_r | constructor]
    | eexists; split;
      [ rewrite <- ?app_assoc; cbn; reflexivity | repeat constructor ] ].
Qed.

Lemma explicit_marker_is_recorded_witness :
  exists (t : string) (rest : list HistoryEntry),
    history_file (snd (_process_request scenario1 quiet))
    = ([] ++ appended None
               {| timestamp := t; role := sender; marker := JStr "m1";
                  content := JStr hello_nl_world |}
          ++ rest)%list
    /\ Forall (fun entry => role entry = target /\ marker entry = JStr "m1") rest.
Proof.
  apply (explicit_marker_is_recorded
           [("content", JStr hello_nl_world); ("marker", JStr "m1")]
           quiet (JStr "m1")); reflexivity.
Defined.



(** ** The loggers *)

(** C8, as stated, fails for the bridge log: a failed write of a
    bridge-log line is swallowed without a word on the console. *)
Lemma bridge_log_failure_is_silent :
  _log_bridge (LogText "error: boom") log_fails = (Ret tt, quiet)
  /\ console (snd (_log_bridge (LogText "error: boom") log_fails)) = [].
Proof. split; reflexivity. Qed.

(** C8, amended.  Both loggers always return normally.  A failed write
    of a history entry leaves the file as it was and is reported on
    the console, with the text of the exception; a failed write of a
    bridge-log line leaves the log as it was and is dropped in
    silence.  Neither touches the running flag nor sleeps, so the loop
    goes on. *)
Theorem log_failures_are_local :
  (forall (role : string) (content marker : json) (w : world),
      fst (_append_history role content marker w) = Ret tt)
  /\ (forall (message : log_message) (w : world),
         fst (_log_bridge message w) = Ret tt)
  /\ (forall (role : string) (content marker : json) (w : world) (e : exception),
         hd None (history_script w) = Some e ->
         let w' := snd (_append_history role content marker w) in
         history_file w' = history_file w
         /\ console w' = (console w ++ [(history_fail_prefix ++ str_exc e)%string])%list
         /\ _running w' = _running w /\ slept w' = slept w)
  /\ (forall (message : log_message) (w : world) (e : exception),
         hd None (log_script w) = Some e ->
         let w' := snd (_log_bridge message w) in
         bridge_log w' = bridge_log w
         /\ console w' = console w
         /\ _running w' = _running w /\ slept w' = slept w).
Proof.
  split; [exact _append_history_returns|].
  split; [exact _log_bridge_returns|].
  split.
  - intros role content marker w e He. unfold_bridge; cbn.
    rewrite He; cbn. repeat split.
  - intros message w e He. unfold_bridge; cbn.
    rewrite He; cbn. repeat split.
Qed.

Lemma log_failures_are_local_witness :
  console (snd (_append_history sender (JStr "x") (JStr "m1") history_fails))
  = [history_fail_prefix ++ str_exc disk_full]
  /\ console (snd (_log_bridge (LogText "error: boom") log_fails)) = [].
Proof.
  destruct log_failures_are_local as (_ & _ & Hhist & Hlog). split.
  - apply (Hhist sender (JStr "x") (JStr "m1") history_fails disk_full).
    reflexivity.
  - apply (Hlog (LogText "error: boom") log_fails disk_full).
    reflexivity.
Defined.

(** ** Markers *)



Lemma string_of_uint_digits (d : Decimal.uint) :
  all_digits (NilEmpty.string_of_uint d) = true.
Proof. induction d; simpl; auto. Qed.

Lemma to_uint_nonnil (n : N) : N.to_uint n <> Decimal.Nil.
Proof.
  destruct n as [|p]; simpl; [discriminate|].
  apply DecimalPos.Unsigned.to_uint_nonnil.
Qed.

Lemma str_of_N_digits (n : N) : digits (str_of_N n) = true.
Proof.
  unfold digits, str_of_N, NilZero.string_of_uint.
  pose proof (to_uint_nonnil n) as Hn.
  pose proof (string_of_uint_digits (N.to_uint n)) as Hd.
  destruct (N.to_uint n); try contradiction; simpl in *; exact Hd.
Qed.

Lemma str_of_N_inj (a b : N) : str_of_N a = str_of_N b -> a = b.
Proof.
  unfold str_of_N. intros H.
  apply DecimalN.Unsigned.to_uint_inj.
  apply (f_equal NilZero.uint_of_string) in H.
  rewrite !NilZero.usu in H by apply to_uint_nonnil.
  now injection H.
Qed.

(** A run of digits ends at the first dash. *)
Lemma split_at_dash (a a' b b' : string) :
  all_digits a = true -> all_digits a' = true ->
  a ++ String "-" b = a' ++ String "-" b' -> a = a' /\ b = b'.
Proof.
  revert a'; induction a as [|c a IH]; intros [|c' a'] Ha Ha' H;
    cbn [String.append all_digits] in *.
  - injection H as ->. split; reflexivity.
  - injection H as <- _. discriminate Ha'.
  - injection H as -> _. discriminate Ha.
  - injection H as -> H.
    apply andb_prop in Ha as [_ Ha]. apply andb_prop in Ha' as [_ Ha'].
    destruct (IH a' Ha Ha' H) as [-> ->]. split; reflexivity.
Qed.

Lemma digits_all (s : string) : digits s = true -> all_digits s = true.
Proof. unfold digits. intros H. now apply andb_prop in H as [_ H]. Qed.

Lemma marker_text_inj (t1 p1 t2 p2 : N) :
  marker_text t1 p1 = marker_text t2 p2 -> t1 = t2 /\ p1 = p2.
Proof.
  unfold marker_text. cbn [String.append]. intros H.
  injection H as H.
  apply split_at_dash in H as [Ht Hp];
    try (apply digits_all, str_of_N_digits).
  split; apply str_of_N_inj; assumption.
Qed.

(** C7, as stated, fails: two markers generated in the same process
    within the same second are the same string. *)
Lemma markers_collide_within_a_second :
  fst ((first <- _generate_marker ;;
        second <- _generate_marker ;;
        ret (first, second))%py same_second)
  = Ret ("ask-1700000000-4242", "ask-1700000000-4242").
Proof. reflexivity. Qed.

(** C7, amended.  Every generated marker is [ask-], the decimal digits
    of the unix seconds, a dash, and the decimal digits of the process
    id.  The marker determines both numbers; so two markers generated
    by the same process are distinct exactly when they are generated
    at different seconds, and equal within the same second. *)
Theorem generated_marker_shape :
  (forall w : world,
      exists secs pids : string,
        fst (_generate_marker w) = Ret ("ask-" ++ secs ++ "-" ++ pids)
        /\ digits secs = true /\ digits pids = true
        /\ secs = str_of_N (unix_seconds (hd epoch (clock_script w)))
        /\ pids = str_of_N (pid w))
  /\ (forall t1 p1 t2 p2 : N,
         marker_text t1 p1 = marker_text t2 p2 <-> t1 = t2 /\ p1 = p2)
  /\ (forall w1 w2 : world,
         pid w1 = pid w2 ->
         (fst (_generate_marker w1) = fst (_generate_marker w2)
          <-> unix_seconds (hd epoch (clock_script w1))
              = unix_seconds (hd epoch (clock_script w2)))).
Proof.
  split; [|split].
  - intros w. do 2 eexists.
    split; [reflexivity|].
    split; [apply str_of_N_digits|].
    split; [apply str_of_N_digits|].
    split; reflexivity.
  - intros t1 p1 t2 p2. split.
    + apply marker_text_inj.
    + intros [-> ->]. reflexivity.
  - intros w1 w2 Hpid. unfold _generate_marker, bind, now, ret; cbn.
    rewrite Hpid. split.
    + intros H.
      apply (f_equal (fun o => match o with Ret m => m | Raise _ => "" end)) in H.
      apply marker_text_inj in H. tauto.
    + intros ->. reflexivity.
Qed.

Lemma generated_marker_shape_witness :
  fst (_generate_marker quiet) = fst (_generate_marker same_second)
  <-> unix_seconds (hd epoch (clock_script quiet))
      = unix_seconds (hd epoch (clock_script same_second)).
Proof.
  apply (proj2 (proj2 generated_marker_shape) quiet same_second).
  reflexivity.
Defined.

(** ** The channel reader *)



(** ** The backoff of the loop *)

Lemma nonzero_false (q : Q) : nonzero q = false -> q == 0.
Proof.
  unfold nonzero. intros H.
  apply negb_false_iff in H. now apply Qeq_bool_iff.
Qed.

Lemma nonzero_true (q : Q) : nonzero q = true -> ~ q == 0.
Proof.
  unfold nonzero. intros H Hq.
  apply Qeq_bool_iff in Hq. rewrite Hq in H. discriminate.
Qed.

Lemma reset_backoff_eq (cfg : config) :
  0 <= error_backoff_min cfg -> 0 <= error_backoff_max cfg ->
  reset_backoff cfg == Qmin (error_backoff_min cfg) (error_backoff_max cfg).
Proof.
  intros Hmin Hmax. unfold reset_backoff.
  apply Q.max_r. apply Q.min_glb; assumption.
Qed.

Lemma reset_in_bounds (cfg : config) :
  0 <= error_backoff_min cfg -> 0 <= error_backoff_max cfg ->
  in_bounds cfg (reset_backoff cfg).
Proof.
  intros Hmin Hmax. unfold in_bounds.
  rewrite (reset_backoff_eq cfg Hmin Hmax).
  split; [apply Qle_refl|apply Q.le_min_r].
Qed.

Lemma grow_in_bounds (cfg : config) (error_backoff : Q) :
  in_bounds cfg (grow_backoff cfg error_backoff).
Proof.
  unfold in_bounds, grow_backoff. split.
  - apply Q.min_glb; [apply Q.le_min_r|].
    eapply Qle_trans; [apply Q.le_min_l|apply Q.le_max_l].
  - apply Q.le_min_l.
Qed.

Lemma in_bounds_nonneg (cfg : config) (error_backoff : Q) :
  0 <= error_backoff_min cfg -> 0 <= error_backoff_max cfg ->
  in_bounds cfg error_backoff -> 0 <= error_backoff.
Proof.
  intros Hmin Hmax [Hlo _].
  eapply Qle_trans; [|exact Hlo]. apply Q.min_glb; assumption.
Qed.

Lemma grow_between (cfg : config) (error_backoff : Q) :
  0 <= error_backoff ->
  in_bounds cfg error_backoff ->
  at_most_doubled error_backoff (grow_backoff cfg error_backoff).
Proof.
  intros H0 [Hlo Hhi]. unfold at_most_doubled, grow_backoff.
  pose proof (Q.max_spec (error_backoff_min cfg) (error_backoff * 2)) as Hmax.
  pose proof (Q.min_spec (error_backoff_max cfg)
                (Qmax (error_backoff_min cfg) (error_backoff * 2))) as Hmin.
  pose proof (Q.min_spec (error_backoff_min cfg) (error_backoff_max cfg)) as Hb.
  destruct Hmax as [[? ?]|[? ?]], Hmin as [[? ?]|[? ?]], Hb as [[? ?]|[? ?]];
    split; lra.
Qed.

Lemma _env_float_nonneg (float : string -> option Q) (name : string)
    (default : Q) (w : world) :
  0 <= default ->
  exists v, _env_float float name default w = (Ret v, w) /\ 0 <= v.
Proof.
  intros Hd. unfold _env_float.
  destruct (find _ (environ w)) as [[k raw]|]; [|eauto].
  destruct (float raw) as [value|]; [|eauto].
  eexists; split; [reflexivity|apply Q.le_max_l].
Qed.

Lemma settings_nonneg (float : string -> option Q) (w w' : world) (cfg : config) :
  settings float w = (Ret cfg, w') ->
  0 <= idle_sleep cfg /\ 0 <= error_backoff_min cfg /\ 0 <= error_backoff_max cfg.
Proof.
  unfold settings, bind, ret.
  destruct (_env_float_nonneg float "CCB_BRIDGE_IDLE_SLEEP" (1 # 20) w)
    as (a & -> & Ha); [discriminate|].
  destruct (_env_float_nonneg float "CCB_BRIDGE_ERROR_BACKOFF_MIN" (1 # 20) w)
    as (b & -> & Hb); [discriminate|].
  destruct (_env_float_nonneg float "CCB_BRIDGE_ERROR_BACKOFF_MAX" (1 # 5) w)
    as (c & -> & Hc); [discriminate|].
  intros [= <- _]. cbn. auto.
Qed.

Lemma _read_request_slept (json_loads : string -> option json) (w : world) :
  slept (snd (_read_request json_loads w)) = slept w.
Proof.
  unfold _read_request, fifo_exists, fifo_readline, loads, try_except,
    bind, ret, raise.
  destruct (hd FifoMissing (fifo_script w)) as [|e|line] eqn:Hf; cbn;
    rewrite ?Hf; cbn; repeat (split_match; cbn); reflexivity.
Qed.

Lemma _process_request_slept (payload : json) (w : world) :
  slept (snd (_process_request payload w)) = slept w.
Proof. destruct payload; run_bridge; reflexivity. Qed.

(** The error handler of the loop sleeps the current backoff, when it
    is not zero, and grows it, when the maximum is not zero. *)
Lemma on_error_effect (cfg : config) (error_backoff : Q) (exc : exception)
    (w : world) :
  fst (on_error cfg error_backoff exc w)
  = Ret (if nonzero (error_backoff_max cfg)
         then grow_backoff cfg error_backoff else error_backoff)
  /\ slept (snd (on_error cfg error_backoff exc w))
     = (slept w ++ if nonzero error_backoff then [error_backoff] else [])%list.
Proof.
  unfold on_error. unfold_bridge; cbn.
  destruct (hd None (log_script w)); cbn;
    destruct (nonzero error_backoff); cbn;
    rewrite ?app_nil_r; split; reflexivity.
Qed.

Section Loop.

Variable json_loads : string -> option json.
Variable cfg : config.

Lemma attempt_returns (error_backoff x : Q) (w w' : world) :
  attempt json_loads cfg error_backoff w = (Ret x, w') ->
  x = error_backoff \/ x = reset_backoff cfg.
Proof.
  unfold attempt, bind, ret.
  destruct (_read_request json_loads w) as [[payload|r] w0]; [|discriminate].
  destruct payload;
    try (destruct (_process_request _ w0) as [[u|r] w1];
         [intros [= <- _]; right; reflexivity|discriminate]).
  destruct (nonzero (idle_sleep cfg)); cbn; intros [= <- _]; left; reflexivity.
Qed.

Lemma attempt_raises_slept (error_backoff : Q) (r : raised) (w w' : world) :
  attempt json_loads cfg error_backoff w = (Raise r, w') ->
  slept w' = slept w.
Proof.
  unfold attempt, bind, ret.
  pose proof (_read_request_slept json_loads w) as Hr.
  destruct (_read_request json_loads w) as [[payload|r0] w0]; cbn in Hr;
    [|intros [= _ <-]; exact Hr].
  destruct payload;
    try (match goal with
         | |- context [_process_request ?p w0] =>
             pose proof (_process_request_slept p w0) as Hp;
             destruct (_process_request p w0) as [[u|r1] w1]; cbn in Hp;
             [discriminate|intros [= _ <-]; congruence]
         end).
  destruct (nonzero (idle_sleep cfg)); cbn; discriminate.
Qed.

(** The backoff an iteration hands on is the one it got, the reset
    value, or the grown one. *)
Lemma loop_body_backoff (error_backoff x : Q) (w w' : world) :
  loop_body json_loads cfg error_backoff w = (Ret x, w') ->
  x = error_backoff \/ x = reset_backoff cfg
  \/ x = grow_backoff cfg error_backoff.
Proof.
  unfold loop_body.
  destruct (attempt json_loads cfg error_backoff w) as [[y|[exc| |]] w0] eqn:Ha.
  - intros [= <- _]. apply attempt_returns in Ha. tauto.
  - destruct (on_error_effect cfg error_backoff exc w0) as [Hr _].
    destruct (on_error cfg error_backoff exc w0) as [o w1]; cbn in Hr; subst o.
    intros [= <- _]. destruct (nonzero (error_backoff_max cfg)); tauto.
  - intros [= <- _]. tauto.
  - discriminate.
Qed.

Lemma loop_body_in_bounds (error_backoff x : Q) (w w' : world) :
  0 <= error_backoff_min cfg -> 0 <= error_backoff_max cfg ->
  in_bounds cfg error_backoff ->
  loop_body json_loads cfg error_backoff w = (Ret x, w') ->
  in_bounds cfg x.
Proof.
  intros Hmin Hmax Hin H.
  apply loop_body_backoff in H as [->|[->| ->]].
  - exact Hin.
  - now apply reset_in_bounds.
  - apply grow_in_bounds.
Qed.

Lemma while_running_in_bounds (fuel : nat) :
  0 <= error_backoff_min cfg -> 0 <= error_backoff_max cfg ->
  forall (error_backoff x : Q) (w w' : world),
    in_bounds cfg error_backoff ->
    while_running json_loads fuel cfg error_backoff w = (Ret x, w') ->
    in_bounds cfg x.
Proof.
  intros Hmin Hmax.
  induction fuel as [|fuel IH]; intros eb x w w' Hin; cbn.
  - intros [= <- _]. exact Hin.
  - unfold bind at 1.
    destruct (deliver_signal w) as [[u|r] ws]; [|discriminate].
    destruct (_running ws); [|intros [= <- _]; exact Hin].
    unfold bind.
    destruct (loop_body json_loads cfg eb ws) as [[y|r] wb] eqn:Hb;
      [|discriminate].
    apply IH. eapply loop_body_in_bounds; eassumption.
Qed.

(** A dispatch that returns normally ends the iteration with the
    backoff reset. *)
Lemma loop_body_dispatch (error_backoff : Q) (payload : json) (w wr wd : world) :
  _read_request json_loads w = (Ret payload, wr) ->
  payload <> JNull ->
  _process_request payload wr = (Ret tt, wd) ->
  loop_body json_loads cfg error_backoff w = (Ret (reset_backoff cfg), wd).
Proof.
  intros Hr Hp Hd. unfold loop_body, attempt, bind. rewrite Hr.
  destruct payload; try contradiction; rewrite Hd; reflexivity.
Qed.

Lemma deliver_signal_slept (w : world) :
  slept (snd (deliver_signal w)) = slept w.
Proof.
  unfold deliver_signal, _handle_signal, bind, _log_console.
  destruct (hd None (signal_script w)); reflexivity.
Qed.

Lemma fails_intro (error_backoff x : Q) (exc : exception) (w ws w1 w' : world) :
  deliver_signal w = (Ret tt, ws) ->
  _running ws = true ->
  attempt json_loads cfg error_backoff ws = (Raise (Exc exc), w1) ->
  loop_body json_loads cfg error_backoff ws = (Ret x, w') ->
  fails json_loads cfg (error_backoff, w) (x, w').
Proof. intros Hs Hr Ha Hb. exists exc, ws, w1. auto. Qed.

(** What one failing iteration does to the backoff and to the sleeps. *)
Lemma fails_effect (error_backoff x : Q) (w w' : world) :
  fails json_loads cfg (error_backoff, w) (x, w') ->
  x = (if nonzero (error_backoff_max cfg)
       then grow_backoff cfg error_backoff else error_backoff)
  /\ slept w'
     = (slept w ++ if nonzero error_backoff then [error_backoff] else [])%list.
Proof.
  intros (exc & ws & w1 & Hsig & _ & Ha & Hb). cbn [fst snd] in *.
  pose proof (deliver_signal_slept w) as Hws. rewrite Hsig in Hws. cbn in Hws.
  unfold loop_body in Hb. rewrite Ha in Hb.
  destruct (on_error_effect cfg error_backoff exc w1) as [Hr Hs].
  rewrite Hb in Hr, Hs. cbn in Hr, Hs.
  apply attempt_raises_slept in Ha. rewrite Ha, Hws in Hs.
  split; [congruence|exact Hs].
Qed.

(** Failing iterations in a row are iterations of the loop: the loop
    runs through them and goes on from where they end. *)
Lemma fails_in_a_row_run (before after : Q * world) :
  fails_in_a_row json_loads cfg before after ->
  exists n : nat,
    forall fuel : nat,
      while_running json_loads (n + fuel) cfg (fst before) (snd before)
      = while_running json_loads fuel cfg (fst after) (snd after).
Proof.
  intros Hrun.
  induction Hrun as [x|x y z Hstep Hrun [n IH]].
  - exists 0%nat. reflexivity.
  - exists (S n). intros fuel.
    destruct Hstep as (exc & ws & w1 & Hsig & Hr & _ & Hb).
    cbn [plus while_running]. unfold bind at 1. rewrite Hsig, Hr.
    unfold bind. rewrite Hb. apply IH.
Qed.

Lemma fails_in_a_row_sleeps (before after : Q * world) :
  0 <= error_backoff_min cfg -> 0 <= error_backoff_max cfg ->
  fails_in_a_row json_loads cfg before after ->
  in_bounds cfg (fst before) ->
  exists ds : list Q,
    slept (snd after) = (slept (snd before) ++ ds)%list
    /\ Sorted at_most_doubled ds
    /\ Forall (fun d => fst before <= d /\ d <= error_backoff_max cfg
                        /\ ~ d == 0) ds
    /\ (forall d rest, ds = d :: rest -> d = fst before)
    /\ in_bounds cfg (fst after).
Proof.
  intros Hmin Hmax Hrun.
  induction Hrun as [[eb w]|[eb w] [eb1 w1] after Hstep Hrun IH];
    intros Hin; cbn [fst snd] in *.
  - exists []. rewrite app_nil_r.
    split; [reflexivity|]. split; [constructor|]. split; [constructor|].
    split; [discriminate|exact Hin].
  - apply fails_effect in Hstep as [Heb Hs].
    pose proof (in_bounds_nonneg cfg eb Hmin Hmax Hin) as H0.
    assert (Hstep : at_most_doubled eb eb1 /\ in_bounds cfg eb1).
    { subst eb1. destruct (nonzero (error_backoff_max cfg)).
      - split; [now apply grow_between|apply grow_in_bounds].
      - split; [unfold at_most_doubled; lra|exact Hin]. }
    destruct Hstep as [[Hle Hdbl] Hin1].
    destruct (IH Hin1) as (ds & Hsl & Hsorted & Hall & Hfirst & Hafter).
    destruct (nonzero eb) eqn:Hnz.
    + exists (eb :: ds). rewrite Hsl, Hs, <- app_assoc. cbn.
      split; [reflexivity|].
      split.
      { constructor; [exact Hsorted|].
        destruct ds as [|d rest]; constructor.
        rewrite (Hfirst d rest eq_refl). split; assumption. }
      split.
      { constructor.
        - split; [apply Qle_refl|]. split; [apply Hin|now apply nonzero_true].
        - eapply Forall_impl; [|exact Hall]. cbn.
          intros d (Hd & Hdmax & Hd0). repeat split; auto. lra. }
      split; [|exact Hafter].
      intros d rest [= <- _]. reflexivity.
    + exists ds. rewrite Hsl, Hs, app_nil_r.
      split; [reflexivity|]. split; [exact Hsorted|].
      apply nonzero_false in Hnz.
      split.
      { eapply Forall_impl; [|exact Hall]. cbn.
        intros d (Hd & Hdmax & Hd0). repeat split; auto. lra. }
      split; [|exact Hafter].
      intros d rest ->.
      pose proof (Hfirst d rest eq_refl) as ->.
      apply Forall_inv in Hall. cbn in Hall.
      destruct Hall as (_ & _ & Hd0). exfalso. apply Hd0. lra.
Qed.

End Loop.

(** C2, as stated, fails when the configured minimum is above the
    maximum: with a minimum of 0.5 and the default maximum of 0.2 the
    backoff after a successful dispatch is 0.2, below the minimum,
    although the maximum is not zero. *)
Lemma backoff_below_configured_minimum :
  let cfg := {| idle_sleep := 1 # 20; error_backoff_min := 1 # 2;
                error_backoff_max := 1 # 5 |} in
  settings sample_float min_above_max = (Ret cfg, min_above_max)
  /\ fst (while_running sample_loads 1 cfg (reset_backoff cfg) min_above_max)
     = Ret (1 # 5)
  /\ ~ error_backoff_max cfg == 0
  /\ ~ error_backoff_min cfg <= 1 # 5.
Proof.
  cbv zeta. split; [vm_compute; reflexivity|]. split; [vm_compute; reflexivity|].
  split; unfold Qeq, Qle; cbn; lia.
Qed.

(** C2, amended.  With the settings [run] reads, at every point of the
    loop (after any number of iterations, from any world) the backoff
    lies between the smaller of the two settings and the maximum:
    [min(min, max) <= current <= max]; after every dispatch that
    returns, the backoff is [min(min, max)].  Whenever the minimum is
    configured no larger than the maximum this is the claim:
    [min <= current <= max], and [current = min] after a dispatch. *)
Theorem backoff_stays_in_bounds :
  forall (json_loads : string -> option json) (float : string -> option Q)
         (w0 w1 : world) (cfg : config),
    settings float w0 = (Ret cfg, w1) ->
    (forall (n : nat) (w w' : world) (current : Q),
        while_running json_loads n cfg (reset_backoff cfg) w = (Ret current, w') ->
        Qmin (error_backoff_min cfg) (error_backoff_max cfg) <= current
        /\ current <= error_backoff_max cfg
        /\ (error_backoff_min cfg <= error_backoff_max cfg ->
            error_backoff_min cfg <= current))
    /\ (forall (current : Q) (payload : json) (w wr wd : world),
           _read_request json_loads w = (Ret payload, wr) ->
           payload <> JNull ->
           _process_request payload wr = (Ret tt, wd) ->
           loop_body json_loads cfg current w = (Ret (reset_backoff cfg), wd)
           /\ reset_backoff cfg
              == Qmin (error_backoff_min cfg) (error_backoff_max cfg)
           /\ (error_backoff_min cfg <= error_backoff_max cfg ->
               reset_backoff cfg == error_backoff_min cfg)).
Proof.
  intros json_loads float w0 w1 cfg Hcfg.
  apply settings_nonneg in Hcfg as (_ & Hmin & Hmax).
  split.
  - intros n w w' current Hrun.
    apply while_running_in_bounds in Hrun as [Hlo Hhi];
      try assumption; [|now apply reset_in_bounds].
    split; [exact Hlo|]. split; [exact Hhi|].
    intros Hle. rewrite (Q.min_l _ _ Hle) in Hlo. exact Hlo.
  - intros current payload w wr wd Hr Hp Hd.
    split; [eapply loop_body_dispatch; eassumption|].
    pose proof (reset_backoff_eq cfg Hmin Hmax) as Heq.
    split; [exact Heq|].
    intros Hle. rewrite Heq. now apply Q.min_l.
Qed.

Lemma backoff_stays_in_bounds_witness :
  (1 # 20 <= 1 # 5 /\ 1 # 5 <= 1 # 5)
  /\ loop_body sample_loads defaults (1 # 5) request_then_failure
     = (Ret (reset_backoff defaults), request_dispatched)
  /\ reset_backoff defaults == 1 # 20.
Proof.
  destruct (backoff_stays_in_bounds sample_loads sample_float
              quiet quiet defaults eq_refl) as [Hinv Hreset].
  split.
  - destruct (Hinv 3%nat three_failures (snd after_three_failures) (1 # 5))
      as (_ & Hhi & Hlo); [vm_compute; reflexivity|].
    split; [apply Hlo; unfold Qle; simpl; lia|exact Hhi].
  - destruct (Hreset (1 # 5) (JObj []) request_then_failure request_read
                request_dispatched)
      as (Hbody & _ & Hmin);
      [vm_compute; reflexivity|discriminate|vm_compute; reflexivity|].
    split; [exact Hbody|apply Hmin; unfold Qle; simpl; lia].
Defined.

(** C3, as stated, fails in its last part when the configured minimum
    is above the maximum: after a successful dispatch the next failure
    sleeps the maximum, 0.2, not the minimum, 0.5. *)
Lemma backoff_resets_below_configured_minimum :
  let cfg := {| idle_sleep := 1 # 20; error_backoff_min := 1 # 2;
                error_backoff_max := 1 # 5 |} in
  settings sample_float min_above_max = (Ret cfg, min_above_max)
  /\ slept (snd (while_running sample_loads 2 cfg (reset_backoff cfg) min_above_max))
     = [1 # 5]
  /\ ~ 1 # 5 == error_backoff_min cfg.
Proof.
  cbv zeta. split; [vm_compute; reflexivity|]. split; [vm_compute; reflexivity|].
  unfold Qeq; cbn; lia.
Qed.

(** C3, amended.  With the settings [run] reads, take any number of
    iterations of the loop in a row that end in the error handler
    ([fails_in_a_row]; by [fails_in_a_row_run] the loop runs through
    exactly these), starting from a backoff within its bounds (as it
    always is).  The sleeps they add are the backoff sleeps; each is no
    shorter than the one before and at most its double, none exceeds
    the maximum, and the first is the backoff the iterations started
    from.  After a dispatch that returns, the backoff is reset, so the
    sleeps of later failures start again from [min(min, max)], which
    is the minimum whenever the minimum is configured no larger than
    the maximum. *)
Theorem backoff_sleeps_grow_within_bounds :
  forall (json_loads : string -> option json) (float : string -> option Q)
         (w0 w1 : world) (cfg : config),
    settings float w0 = (Ret cfg, w1) ->
    (forall (current current' : Q) (w w' : world),
        in_bounds cfg current ->
        fails_in_a_row json_loads cfg (current, w) (current', w') ->
        exists sleeps : list Q,
          slept w' = (slept w ++ sleeps)%list
          /\ Sorted at_most_doubled sleeps
          /\ Forall (fun d => d <= error_backoff_max cfg) sleeps
          /\ (forall d rest, sleeps = d :: rest -> d = current)
          /\ in_bounds cfg current')
    /\ (forall (current current' : Q) (payload : json) (w wr wd w' : world),
           _read_request json_loads w = (Ret payload, wr) ->
           payload <> JNull ->
           _process_request payload wr = (Ret tt, wd) ->
           loop_body json_loads cfg current w = (Ret (reset_backoff cfg), wd)
           /\ (fails_in_a_row json_loads cfg (reset_backoff cfg, wd) (current', w') ->
               exists sleeps : list Q,
                 slept w' = (slept wd ++ sleeps)%list
                 /\ (forall d rest, sleeps = d :: rest ->
                       d == Qmin (error_backoff_min cfg) (error_backoff_max cfg)
                       /\ (error_backoff_min cfg <= error_backoff_max cfg ->
                           d == error_backoff_min cfg)))).
Proof.
  intros json_loads float w0 w1 cfg Hcfg.
  apply settings_nonneg in Hcfg as (_ & Hmin & Hmax).
  split.
  - intros current current' w w' Hin Hrun.
    destruct (fails_in_a_row_sleeps json_loads cfg _ _ Hmin Hmax Hrun Hin)
      as (ds & Hs & Hsorted & Hall & Hfirst & Hafter).
    exists ds. cbn [fst snd] in *.
    split; [exact Hs|]. split; [exact Hsorted|].
    split; [|split; assumption].
    eapply Forall_impl; [|exact Hall]. cbn. tauto.
  - intros current current' payload w wr wd w' Hr Hp Hd.
    split; [eapply loop_body_dispatch; eassumption|].
    intros Hrun.
    destruct (fails_in_a_row_sleeps json_loads cfg _ _ Hmin Hmax Hrun
                (reset_in_bounds cfg Hmin Hmax))
      as (ds & Hs & _ & _ & Hfirst & _).
    exists ds. cbn [fst snd] in *. split; [exact Hs|].
    intros d rest Hds. rewrite (Hfirst d rest Hds).
    pose proof (reset_backoff_eq cfg Hmin Hmax) as Heq.
    split; [exact Heq|].
    intros Hle. rewrite Heq. now apply Q.min_l.
Qed.

Lemma backoff_sleeps_grow_within_bounds_witness :
  (exists sleeps : list Q,
      slept (snd after_three_failures) = (slept three_failures ++ sleeps)%list
      /\ Sorted at_most_doubled sleeps
      /\ Forall (fun d => d <= 1 # 5) sleeps
      /\ (forall d rest, sleeps = d :: rest -> d = 1 # 20)
      /\ in_bounds defaults (1 # 5))
  /\ (exists sleeps : list Q,
         slept (snd after_request_then_failure)
         = (slept request_dispatched ++ sleeps)%list
         /\ (forall d rest, sleeps = d :: rest -> d == 1 # 20)).
Proof.
  destruct (backoff_sleeps_grow_within_bounds sample_loads sample_float
              quiet quiet defaults eq_refl) as [Hgrow Hreset].
  split.
  - apply (Hgrow (1 # 20) (1 # 5) three_failures (snd after_three_failures)).
    + split; unfold Qle; simpl; lia.
    + do 3 (eapply Relation_Operators.rt1n_trans;
            [eapply fails_intro;
             [ vm_compute; reflexivity | vm_compute; reflexivity
             | vm_compute; reflexivity | vm_compute; reflexivity ]|]).
      apply Relation_Operators.rt1n_refl.
  - destruct (Hreset (1 # 5) (2 # 20) (JObj []) request_then_failure request_read
                request_dispatched (snd after_request_then_failure))
      as (_ & Hlater);
      [vm_compute; reflexivity|discriminate|vm_compute; reflexivity|].
    destruct Hlater as (sleeps & Hslept & Hfirst).
    + eapply Relation_Operators.rt1n_trans;
        [eapply fails_intro;
         [ vm_compute; reflexivity | vm_compute; reflexivity
         | vm_compute; reflexivity | vm_compute; reflexivity ]|].
      apply Relation_Operators.rt1n_refl.
    + exists sleeps. split; [exact Hslept|].
      intros d rest Hd. apply (Hfirst d rest Hd). unfold Qle; simpl; lia.
Defined.

(** ** The scenarios of the specification, run *)

(** Scenario 1: the request is recorded as it came and sent normalised;
    nothing of role [codex] is recorded. *)
Example scenario_request_is_relayed :
  let w := snd (_process_request scenario1 quiet) in
  history_file w
  = [ {| timestamp := utc_stamp epoch; role := sender; marker := JStr "m1";
         content := JStr hello_nl_world |} ]
  /\ backend_calls w = [("%1", "hello world")]
  /\ console w = [].
Proof. vm_compute. repeat split. Qed.

(** Scenario 2: the backend raises; a [codex] entry with the same
    marker follows the sender entry and the loop keeps running. *)
Example scenario_backend_failure_is_recorded :
  let w := snd (_process_request scenario1 backend_fails) in
  map role (history_file w) = [sender; target]
  /\ map marker (history_file w) = [JStr "m1"; JStr "m1"]
  /\ console w = [fail_prefix ++ "boom"]
  /\ _running w = true.
Proof. vm_compute. repeat split. Qed.

(** Scenario 3: three failed reads sleep 0.05, 0.1 and 0.2 seconds; the
    request that follows resets the backoff to 0.05. *)
Example scenario_three_failures :
  slept (snd (run sample_loads sample_float 3 three_failures))
  = [1 # 20; 2 # 20; 1 # 5]
  /\ fst (while_running sample_loads 4 defaults (reset_backoff defaults)
            three_failures)
     = Ret (1 # 20).
Proof. vm_compute. split; reflexivity. Qed.

(** Scenario 4: a signal stops the loop; [run] prints its last message
    once and returns 0. *)
Example scenario_shutdown :
  let r := run sample_loads sample_float 10 terminated in
  fst r = Ret (Some 0%Z)
  /\ console (snd r)
     = [started_message; signal_prefix ++ "15" ++ signal_suffix; exited_message]
  /\ slept (snd r) = [1 # 20; 1 # 20].
Proof. vm_compute. repeat split. Qed.

(** A line that decodes to something other than an object is a
    loop-body error: dispatch raises [AttributeError] and the loop
    backs off. *)
Example scenario_payload_is_not_an_object :
  fst (_process_request (JInt 5) quiet) = Raise (no_attribute (JInt 5) "get")
  /\ slept (snd (run sample_loads sample_float 1 number_arrives)) = [1 # 20]
  /\ map log_text (bridge_log (snd (run sample_loads sample_float 1 number_arrives)))
     = [LogText "error: 'int' object has no attribute 'get'"].
Proof. vm_compute. repeat split. Qed.

(** * Further properties of the code *)

(** ** The command sent to the terminal *)












(** ** The world only grows *)

Lemma extends_refl {A : Type} (l : list A) : extends l l.
Proof. exists []. now rewrite app_nil_r. Qed.

Lemma extends_trans {A : Type} (a b c : list A) :
  extends a b -> extends b c -> extends a c.
Proof.
  intros [x ->] [y ->]. exists (x ++ y)%list. now rewrite app_assoc.
Qed.

Lemma extends_app {A : Type} (l added : list A) : extends l (l ++ added)%list.
Proof. exists added. reflexivity. Qed.

Lemma grows_refl (w : world) : grows w w.
Proof. unfold grows. auto 10 using @extends_refl. Qed.

Lemma grows_trans (a b c : world) : grows a b -> grows b c -> grows a c.
Proof.
  unfold grows.
  intros (H1 & H2 & H3 & H4 & H5 & H6 & H7 & H8)
         (K1 & K2 & K3 & K4 & K5 & K6 & K7 & K8).
  repeat split; try (eapply extends_trans; eassumption); congruence.
Qed.

Create HintDb grow.

Lemma only_grows_ret {A : Type} (a : A) : only_grows (ret a).
Proof. intros w. apply grows_refl. Qed.

Lemma only_grows_raise {A : Type} (r : raised) : only_grows (@raise A r).
Proof. intros w. apply grows_refl. Qed.

Lemma only_grows_bind {A B : Type} (m : M A) (k : A -> M B) :
  only_grows m -> (forall a, only_grows (k a)) -> only_grows (bind m k).
Proof.
  intros Hm Hk w. unfold bind. specialize (Hm w).
  destruct (m w) as [[a|r] w1]; cbn in *; [|exact Hm].
  eapply grows_trans; [exact Hm|apply Hk].
Qed.

Lemma only_grows_try {A : Type} (body : M A) (catches : exception -> bool)
    (handler : exception -> M A) :
  only_grows body -> (forall e, only_grows (handler e)) ->
  only_grows (try_except body catches handler).
Proof.
  intros Hb Hh w. unfold try_except. specialize (Hb w).
  destruct (body w) as [[a|[e| |]] w1]; cbn in *; try exact Hb.
  destruct (catches e); [|exact Hb].
  eapply grows_trans; [exact Hb|apply Hh].
Qed.

Lemma only_grows_if {A : Type} (b : bool) (m1 m2 : M A) :
  only_grows m1 -> only_grows m2 -> only_grows (if b then m1 else m2).
Proof. destruct b; auto. Qed.

(** A primitive whose effect is spelled out grows the world when each
    of its cases does. *)
Ltac grow_primitive :=
  intros w; unfold grows; cbn;
  repeat match goal with
         | |- context [match ?x with _ => _ end] => destruct x; cbn
         end;
  auto 10 using @extends_refl, @extends_app.

Lemma only_grows_now : only_grows now.
Proof. unfold now. grow_primitive. Qed.

Lemma only_grows_sleep (seconds : Q) : only_grows (sleep seconds).
Proof. unfold sleep. grow_primitive. Qed.

Lemma only_grows_open_history : only_grows open_history.
Proof. unfold open_history. grow_primitive. Qed.

Lemma only_grows_write_history (entry : HistoryEntry) :
  only_grows (write_history entry).
Proof. unfold write_history. grow_primitive. Qed.

Lemma only_grows_open_bridge_log : only_grows open_bridge_log.
Proof. unfold open_bridge_log. grow_primitive. Qed.

Lemma only_grows_write_bridge_log (line : BridgeLogLine) :
  only_grows (write_bridge_log line).
Proof. unfold write_bridge_log. grow_primitive. Qed.

Lemma only_grows_send_text (pane command : string) :
  only_grows (send_text pane command).
Proof. unfold send_text. grow_primitive. Qed.

Lemma only_grows_log_console (message : string) :
  only_grows (_log_console message).
Proof. unfold _log_console. grow_primitive. Qed.

Lemma only_grows_fifo_exists : only_grows fifo_exists.
Proof. unfold fifo_exists. grow_primitive. Qed.

Lemma only_grows_fifo_readline : only_grows fifo_readline.
Proof. unfold fifo_readline. grow_primitive. Qed.

#[export] Hint Resolve only_grows_ret only_grows_raise only_grows_bind
  only_grows_try only_grows_if only_grows_now only_grows_sleep
  only_grows_open_history only_grows_write_history
  only_grows_open_bridge_log only_grows_write_bridge_log
  only_grows_send_text only_grows_log_console only_grows_fifo_exists
  only_grows_fifo_readline : grow.

Lemma only_grows_timestamp : only_grows _timestamp.
Proof. unfold _timestamp. auto with grow. Qed.

Lemma only_grows_generate_marker : only_grows _generate_marker.
Proof.
  unfold _generate_marker. apply only_grows_bind; [auto with grow|].
  intros t w. apply grows_refl.
Qed.

#[export] Hint Resolve only_grows_timestamp only_grows_generate_marker : grow.

Lemma only_grows_log_bridge (message : log_message) :
  only_grows (_log_bridge message).
Proof. unfold _log_bridge. auto 10 with grow. Qed.

Lemma only_grows_append_history (role : string) (content marker : json) :
  only_grows (_append_history role content marker).
Proof. unfold _append_history. auto 10 with grow. Qed.

Lemma only_grows_send (text : json) : only_grows (send text).
Proof.
  unfold send. destruct text; auto with grow.
  apply only_grows_if; [|auto with grow].
  intros w. apply only_grows_send_text.
Qed.

#[export] Hint Resolve only_grows_log_bridge only_grows_append_history
  only_grows_send : grow.

Lemma only_grows_resolve_marker (d : list (string * json)) :
  only_grows (resolve_marker d).
Proof. unfold resolve_marker. auto 10 with grow. Qed.

#[export] Hint Resolve only_grows_resolve_marker : grow.

Lemma only_grows_process_request (payload : json) :
  only_grows (_process_request payload).
Proof. unfold _process_request. destruct payload; auto 15 with grow. Qed.

Lemma only_grows_handle_signal (signum : Z) : only_grows (_handle_signal signum).
Proof.
  unfold _handle_signal. apply only_grows_bind; [|auto with grow].
  grow_primitive.
Qed.

Lemma only_grows_deliver_signal : only_grows deliver_signal.
Proof.
  intros w. unfold deliver_signal.
  destruct (hd None (signal_script w)) as [signum|].
  - eapply grows_trans; [|apply only_grows_handle_signal].
    unfold grows; cbn. auto 10 using @extends_refl.
  - unfold grows; cbn. auto 10 using @extends_refl.
Qed.

#[export] Hint Resolve only_grows_process_request only_grows_handle_signal
  only_grows_deliver_signal : grow.

Section Growth.

Variable json_loads : string -> option json.
Variable float : string -> option Q.

Lemma only_grows_read_request : only_grows (_read_request json_loads).
Proof.
  unfold _read_request. apply only_grows_bind; [auto with grow|].
  intros present. apply only_grows_if; [auto with grow|].
  apply only_grows_try; [|auto with grow].
  apply only_grows_bind; [auto with grow|].
  intros line. apply only_grows_if; [auto with grow|].
  unfold loads. destruct (json_loads line); auto with grow.
Qed.

Lemma only_grows_attempt (cfg : config) (error_backoff : Q) :
  only_grows (attempt json_loads cfg error_backoff).
Proof.
  unfold attempt. apply only_grows_bind; [apply only_grows_read_request|].
  intros payload. destruct payload; auto 10 with grow.
Qed.

Lemma only_grows_on_error (cfg : config) (error_backoff : Q) (exc : exception) :
  only_grows (on_error cfg error_backoff exc).
Proof. unfold on_error. auto 15 with grow. Qed.

Lemma only_grows_loop_body (cfg : config) (error_backoff : Q) :
  only_grows (loop_body json_loads cfg error_backoff).
Proof.
  intros w. unfold loop_body.
  pose proof (only_grows_attempt cfg error_backoff w) as Ha.
  destruct (attempt json_loads cfg error_backoff w) as [[x|[exc| |]] w1];
    cbn in *; try exact Ha.
  eapply grows_trans; [exact Ha|apply only_grows_on_error].
Qed.

Lemma only_grows_while_running (fuel : nat) (cfg : config) :
  forall error_backoff : Q,
    only_grows (while_running json_loads fuel cfg error_backoff).
Proof.
  induction fuel as [|fuel IH]; intros eb; cbn [while_running];
    [auto with grow|].
  apply only_grows_bind; [auto with grow|].
  intros _ w. destruct (_running w); [|apply grows_refl].
  apply only_grows_bind; [apply only_grows_loop_body|exact IH].
Qed.

Lemma only_grows_env_float (name : string) (default : Q) :
  only_grows (_env_float float name default).
Proof.
  intros w. unfold _env_float.
  destruct (find _ (environ w)) as [[k raw]|]; [|apply grows_refl].
  destruct (float raw); apply grows_refl.
Qed.

Lemma only_grows_settings : only_grows (settings float).
Proof.
  unfold settings.
  repeat (apply only_grows_bind; [apply only_grows_env_float|intros ?]).
  auto with grow.
Qed.

Lemma only_grows_run (fuel : nat) : only_grows (run json_loads float fuel).
Proof.
  unfold run.
  apply only_grows_bind; [auto with grow|intros _].
  apply only_grows_bind; [apply only_grows_settings|intros cfg].
  apply only_grows_bind; [apply only_grows_while_running|intros _].
  assert (Hexit : only_grows (_log_console exited_message ;; ret (Some 0%Z)))
    by auto with grow.
  intros w. destruct (_running w); [apply grows_refl|apply Hexit].
Qed.

End Growth.

(** X3.  The bridge is append-only: whatever happens in a run of
    whatever length, the history file, the bridge log and the console
    keep every line they had, in place, and only get more at the end;
    the same holds of one dispatch. *)
Theorem run_is_append_only :
  forall (json_loads : string -> option json) (float : string -> option Q)
         (fuel : nat) (payload : json) (w : world),
    (let w' := snd (run json_loads float fuel w) in
     extends (history_file w) (history_file w')
     /\ extends (bridge_log w) (bridge_log w')
     /\ extends (console w) (console w'))
    /\ (let w' := snd (_process_request payload w) in
        extends (history_file w) (history_file w')
        /\ extends (bridge_log w) (bridge_log w')
        /\ extends (console w) (console w')).
Proof.
  intros json_loads float fuel payload w. split.
  - destruct (only_grows_run json_loads float fuel w) as (H1 & H2 & H3 & _).
    auto.
  - destruct (only_grows_process_request payload w) as (H1 & H2 & H3 & _).
    auto.
Qed.

(** ** The settings *)

(** X4.  [_env_float] never returns a negative number when its default
    is not negative, and never touches the world.  A variable that is
    not set, or whose text [float] rejects, gives the default; a
    negative value gives 0; any other value is kept. *)
Theorem env_float_clamps :
  forall (float : string -> option Q) (name : string) (default : Q) (w : world),
    (exists v, _env_float float name default w = (Ret v, w)
               /\ (0 <= default -> 0 <= v))
    /\ (environ_get (environ w) name = None ->
        _env_float float name default w = (Ret default, w))
    /\ (forall raw, environ_get (environ w) name = Some raw ->
                    float raw = None ->
                    _env_float float name default w = (Ret default, w))
    /\ (forall raw value,
           environ_get (environ w) name = Some raw ->
           float raw = Some value ->
           exists v, _env_float float name default w = (Ret v, w)
                     /\ (value <= 0 -> v == 0) /\ (0 < value -> v = value)).
Proof.
  intros float name default w. unfold _env_float, environ_get.
  destruct (find _ (environ w)) as [[k raw]|]; cbn.
  - destruct (float raw) as [value|] eqn:Hf.
    + split; [eexists; split; [reflexivity|intros _; apply Q.le_max_l]|].
      split; [discriminate|]. split; [intros ? [= <-]; congruence|].
      intros raw' value' [= <-] Hv. rewrite Hf in Hv. injection Hv as <-.
      eexists; split; [reflexivity|]. split.
      * intros Hle. now apply Q.max_l.
      * intros Hlt. unfold Qmax, GenericMinMax.gmax.
        pose proof (proj1 (Qlt_alt 0 value) Hlt) as Hc. now rewrite Hc.
    + split; [eauto|]. split; [discriminate|]. split; [reflexivity|].
      intros raw' value' [= <-] Hv. congruence.
  - split; [eauto|]. split; [reflexivity|]. split; discriminate.
Qed.

Lemma env_float_clamps_witness :
  _env_float sample_float "CCB_BRIDGE_ERROR_BACKOFF_MIN" (1 # 20) quiet
  = (Ret (1 # 20), quiet)
  /\ exists v, _env_float sample_float "CCB_BRIDGE_ERROR_BACKOFF_MIN" (1 # 20)
                 min_above_max = (Ret v, min_above_max)
               /\ (1 # 2 <= 0 -> v == 0) /\ (0 < 1 # 2 -> v = 1 # 2).
Proof.
  split.
  - apply (proj1 (proj2 (env_float_clamps sample_float
                           "CCB_BRIDGE_ERROR_BACKOFF_MIN" (1 # 20) quiet))).
    reflexivity.
  - apply (proj2 (proj2 (proj2 (env_float_clamps sample_float
                                  "CCB_BRIDGE_ERROR_BACKOFF_MIN" (1 # 20)
                                  min_above_max))) "0.5" (1 # 2));
      reflexivity.
Defined.

(** ** The channel reader *)

(** What [_read_request] does, case by case on the answer of the FIFO. *)
Lemma read_request_cases (json_loads : string -> option json) (w : world) :
  _read_request json_loads w
  = (match hd FifoMissing (fifo_script w) with
     | FifoMissing => Ret JNull
     | FifoRaises e =>
         if isinstance e [OSError; JSONDecodeError] then Ret JNull
         else Raise (Exc e)
     | FifoLine line =>
         if line =? "" then Ret JNull
         else match json_loads line with
              | Some v => Ret v
              | None => Ret JNull
              end
     end,
     set_fifo_script (tl (fifo_script w)) w).
Proof.
  unfold _read_request, fifo_exists, fifo_readline, loads, try_except,
    bind, ret, raise.
  destruct (hd FifoMissing (fifo_script w)) as [|e|line] eqn:Hf; cbn;
    rewrite ?Hf; cbn; try reflexivity.
  - unfold isinstance; cbn.
    destruct (pyclass_eqb (cls e) OSError || _)%bool; reflexivity.
  - destruct (line =? ""); [reflexivity|].
    destruct (json_loads line); reflexivity.
Qed.





(** ** The error handler of the loop *)






(** ** Shutdown *)

(** A backend that raises [KeyboardInterrupt] or [SystemExit]: dispatch
    lets it through, having recorded the request and nothing else. *)
Lemma dispatch_interrupted (d : list (string * json)) (w : world) (s : string)
    (r : raised) :
  dict_get d "content" (JStr "") = JStr s ->
  negb (normalize s =? "") = true ->
  hd None (backend_script w) = Some r ->
  r = KeyboardInterrupt \/ r = SystemExit ->
  let p := _process_request (JObj d) w in
  fst p = Raise r
  /\ (exists (m : json) (t : string),
         history_file (snd p)
         = (history_file w
            ++ appended (hd None (history_script w))
                 {| timestamp := t; role := sender; marker := m;
                    content := JStr s |})%list)
  /\ console (snd p) = (console w ++ complaint (hd None (history_script w)))%list
  /\ slept (snd p) = slept w
  /\ _running (snd p) = _running w
  /\ backend_calls (snd p) = (backend_calls w ++ [(pane_id w, normalize s)])%list.
Proof.
  intros Hc Hn Hb Hr p. subst p.
  unfold_bridge; cbn. rewrite Hc; cbn. rewrite Hn; cbn.
  destruct Hr as [-> | ->];
    repeat (rewrite ?Hb; cbn; split_match; cbn); rewrite ?Hb; cbn.
  all: read_effects.
Qed.

(** X9.  When the backend raises [KeyboardInterrupt] on a request, the
    iteration ends the loop instead of reporting an error: it returns
    normally with the running flag down and the backoff as it was,
    having recorded the request in the history; nothing of role
    [codex] is recorded, nothing is printed about the send, and
    nothing sleeps. *)
Theorem keyboard_interrupt_stops_the_loop :
  forall (json_loads : string -> option json) (cfg : config)
         (error_backoff : Q) (w : world) (line s : string)
         (d : list (string * json)),
    hd FifoMissing (fifo_script w) = FifoLine line ->
    line <> "" ->
    json_loads line = Some (JObj d) ->
    dict_get d "content" (JStr "") = JStr s ->
    normalize s <> "" ->
    hd None (backend_script w) = Some KeyboardInterrupt ->
    let r := loop_body json_loads cfg error_backoff w in
    fst r = Ret error_backoff
    /\ _running (snd r) = false
    /\ (exists (m : json) (t : string),
           history_file (snd r)
           = (history_file w
              ++ appended (hd None (history_script w))
                   {| timestamp := t; role := sender; marker := m;
                      content := JStr s |})%list)
    /\ console (snd r) = (console w ++ complaint (hd None (history_script w)))%list
    /\ slept (snd r) = slept w
    /\ backend_calls (snd r) = (backend_calls w ++ [(pane_id w, normalize s)])%list.
Proof.
  intros json_loads cfg eb w line s d Hf Hl Hv Hc Hn Hb r. subst r.
  assert (Hne : (line =? "") = false) by now apply String.eqb_neq.
  assert (Hn' : negb (normalize s =? "") = true)
    by (apply negb_true_iff; now apply String.eqb_neq).
  pose proof (dispatch_interrupted d (set_fifo_script (tl (fifo_script w)) w)
                s KeyboardInterrupt Hc Hn' Hb (or_introl eq_refl)) as Hd.
  unfold loop_body, attempt, bind. rewrite read_request_cases, Hf, Hne, Hv.
  destruct (_process_request (JObj d) _) as [o w2].
  cbn [fst snd] in Hd. destruct Hd as (-> & Hh & Hcon & Hs & _ & Hcalls).
  cbn. repeat split; assumption.
Qed.

Lemma keyboard_interrupt_stops_the_loop_witness :
  let loads := fun line : string =>
                 if line =? "hi" then Some (JObj [("content", JStr "hi")])
                 else None in
  let r := loop_body loads defaults (1 # 20) interrupted in
  fst r = Ret (1 # 20) /\ _running (snd r) = false
  /\ backend_calls (snd r) = [("%1", "hi")].
Proof.
  intros loads r.
  destruct (keyboard_interrupt_stops_the_loop loads defaults (1 # 20)
              interrupted "hi" "hi" [("content", JStr "hi")] eq_refl)
    as (Hr & Hrun & _ & _ & _ & Hcalls);
    [discriminate|reflexivity|reflexivity|discriminate|reflexivity|].
  split; [exact Hr|]. split; [exact Hrun|exact Hcalls].
Defined.

(** X10.  Once the running flag is down the loop does no more work:
    whatever fuel is left, it does not poll the FIFO, dispatch, log to
    the files or sleep, and it hands the backoff back.  A signal that
    arrives before an iteration has this effect: the handler prints
    its one message and that iteration is not run. *)
Theorem stopped_loop_does_nothing :
  forall (json_loads : string -> option json) (cfg : config)
         (error_backoff : Q) (fuel : nat) (w : world),
    (_running w = false ->
     let r := while_running json_loads fuel cfg error_backoff w in
     fst r = Ret error_backoff
     /\ _running (snd r) = false
     /\ fifo_script (snd r) = fifo_script w
     /\ history_file (snd r) = history_file w
     /\ bridge_log (snd r) = bridge_log w
     /\ backend_calls (snd r) = backend_calls w
     /\ slept (snd r) = slept w)
    /\ (forall signum : Z,
           hd None (signal_script w) = Some signum ->
           let r := while_running json_loads (S fuel) cfg error_backoff w in
           fst r = Ret error_backoff
           /\ _running (snd r) = false
           /\ console (snd r)
              = (console w
                 ++ [(signal_prefix ++ str_of_Z signum ++ signal_suffix)%string])%list
           /\ fifo_script (snd r) = fifo_script w
           /\ history_file (snd r) = history_file w
           /\ bridge_log (snd r) = bridge_log w
           /\ backend_calls (snd r) = backend_calls w
           /\ slept (snd r) = slept w).
Proof.
  intros json_loads cfg eb fuel w. split.
  - intros Hrun r. subst r. destruct fuel as [|fuel]; cbn [while_running].
    + cbn. repeat split; auto.
    + unfold bind, deliver_signal, _handle_signal, bind, _log_console.
      destruct (hd None (signal_script w)); cbn; rewrite ?Hrun; cbn;
        repeat split; auto.
  - intros signum Hs r. subst r. cbn [while_running].
    unfold bind, deliver_signal, _handle_signal, bind, _log_console.
    rewrite Hs; cbn. repeat split; auto.
Qed.

Lemma stopped_loop_does_nothing_witness :
  let r := while_running sample_loads 5 defaults (1 # 20)
             (set_signal_script [Some 15%Z] three_failures) in
  fst r = Ret (1 # 20) /\ _running (snd r) = false
  /\ fifo_script (snd r) = fifo_script three_failures
  /\ slept (snd (while_running sample_loads 5 defaults (1 # 20)
                   (set_running false three_failures))) = [].
Proof.
  destruct (stopped_loop_does_nothing sample_loads defaults (1 # 20) 4
              (set_signal_script [Some 15%Z] three_failures))
    as [_ Hsig].
  destruct (Hsig 15%Z eq_refl) as (Hr & Hrun & _ & Hf & _).
  destruct (stopped_loop_does_nothing sample_loads defaults (1 # 20) 5
              (set_running false three_failures))
    as [Hstop _].
  destruct (Hstop eq_refl) as (_ & _ & _ & _ & _ & _ & Hslept).
  split; [exact Hr|]. split; [exact Hrun|]. split; [exact Hf|exact Hslept].
Defined.






(** ** What one dispatch records *)

Lemma marker_text_truthy (seconds process_id : N) :
  truthy (JStr (marker_text seconds process_id)) = true.
Proof. reflexivity. Qed.

(** Close a leaf of [dispatch_uses_one_marker]: the marker is known,
    the stamps and the entries after the sender's are read off the run. *)
Ltac one_marker_leaf :=
  do 3 open_ex;
  first
    [ exists [];
      split; [first [reflexivity | assumption | apply marker_text_truthy]|];
      split; [first [left; reflexivity | right; reflexivity]|];
      split; [rewrite ?app_nil_r; reflexivity|];
      split; [rewrite ?app_nil_r; reflexivity|constructor]
    | eexists;
      split; [first [reflexivity | assumption | apply marker_text_truthy]|];
      split; [first [left; reflexivity | right; reflexivity]|];
      split; [rewrite ?app_nil_r; reflexivity|];
      split; [rewrite <- ?app_assoc; cbn; reflexivity|repeat constructor] ].

(** X12.  One dispatch works with one marker, and the marker is never
    falsy: it is the marker of the request, or the generated one.  The
    echo in the bridge log, the sender entry of the history and the
    failure entry, if there is one, all carry it, and the echo and the
    sender entry carry the same content. *)
Theorem dispatch_uses_one_marker :
  forall (d : list (string * json)) (w : world),
    exists (m : json) (t1 stamp asked : string) (rest : list HistoryEntry),
      let w' := snd (_process_request (JObj d) w) in
      let content := dict_get d "content" (JStr "") in
      truthy m = true
      /\ (m = dict_get d "marker" JNull
          \/ m = JStr (marker_text (unix_seconds (hd epoch (clock_script w)))
                         (pid w)))
      /\ bridge_log w'
         = (bridge_log w
            ++ logged (hd None (log_script w))
                 {| log_time := stamp;
                    log_text := LogQuestion m content asked |})%list
      /\ history_file w'
         = (history_file w
            ++ appended (hd None (history_script w))
                 {| timestamp := t1; role := sender; marker := m;
                    content := content |}
            ++ rest)%list
      /\ Forall (fun entry => role entry = target /\ marker entry = m) rest.
Proof.
  intros d w.
  destruct (truthy (dict_get d "marker" JNull)) eqn:Hm.
  - exists (dict_get d "marker" JNull).
    unfold_bridge; cbn. rewrite Hm; cbn.
    repeat (split_match; cbn).
    all: one_marker_leaf.
  - exists (JStr (marker_text (unix_seconds (hd epoch (clock_script w))) (pid w))).
    unfold_bridge; cbn. rewrite Hm; cbn.
    repeat (split_match; cbn).
    all: one_marker_leaf.
Qed.

(** When [send] returns, the command was empty or the backend took it. *)
Lemma send_returns (text : json) (w : world) :
  fst (send text w) = Ret tt ->
  exists s, text = JStr s
            /\ (negb (normalize s =? "") = false
                \/ (negb (normalize s =? "") = true
                    /\ hd None (backend_script w) = None)).
Proof.
  destruct text; cbn; try discriminate.
  destruct (negb (normalize s =? "")) eqn:Hn; cbn; [|eauto].
  unfold send_text.
  destruct (hd None (backend_script w)) as [r|] eqn:Hb; cbn; [discriminate|].
  eauto.
Qed.

(** X13.  When the send returns normally (the backend took the command,
    or the command was empty and the backend was not called), dispatch
    returns normally and records the request alone: the history gets
    the sender entry and no entry of role [codex], and the console
    gets nothing but the complaint of a failed history write. *)
Theorem successful_send_records_sender_only :
  forall (d : list (string * json)) (w : world),
    fst (send (dict_get d "content" (JStr "")) w) = Ret tt ->
    let w' := snd (_process_request (JObj d) w) in
    fst (_process_request (JObj d) w) = Ret tt
    /\ (exists (m : json) (t : string),
           history_file w'
           = (history_file w
              ++ appended (hd None (history_script w))
                   {| timestamp := t; role := sender; marker := m;
                      content := dict_get d "content" (JStr "") |})%list)
    /\ console w' = (console w ++ complaint (hd None (history_script w)))%list
    /\ _running w' = _running w
    /\ slept w' = slept w.
Proof.
  intros d w Hsend w'. subst w'.
  apply send_returns in Hsend as (s & Hc & [Hn|[Hn Hb]]).
  - unfold_bridge; cbn. rewrite Hc; cbn. rewrite Hn; cbn.
    repeat (split_match; cbn).
    all: read_effects.
  - unfold_bridge; cbn. rewrite Hc; cbn. rewrite Hn; cbn.
    repeat (rewrite ?Hb; cbn; split_match; cbn); rewrite ?Hb; cbn.
    all: read_effects.
Qed.

Lemma successful_send_records_sender_only_witness :
  fst (_process_request scenario1 quiet) = Ret tt
  /\ console (snd (_process_request scenario1 quiet)) = [].
Proof.
  destruct (successful_send_records_sender_only
              [("content", JStr hello_nl_world); ("marker", JStr "m1")]
              quiet eq_refl)
    as (Hr & _ & Hc & _).
  split; [exact Hr|exact Hc].
Defined.

(** ** The sleeps of the loop *)

Section Sleeps.

Variable json_loads : string -> option json.
Variable cfg : config.

Lemma attempt_returns_slept (error_backoff x : Q) (w w' : world) :
  attempt json_loads cfg error_backoff w = (Ret x, w') ->
  (x = reset_backoff cfg /\ slept w' = slept w)
  \/ (x = error_backoff
      /\ slept w'
         = (slept w ++ if nonzero (idle_sleep cfg) then [idle_sleep cfg] else [])%list).
Proof.
  unfold attempt, bind, ret.
  pose proof (_read_request_slept json_loads w) as Hr.
  destruct (_read_request json_loads w) as [[payload|r0] w0]; cbn in Hr;
    [|discriminate].
  destruct payload;
    try (match goal with
         | |- context [_process_request ?p w0] =>
             pose proof (_process_request_slept p w0) as Hp;
             destruct (_process_request p w0) as [[u|r1] w1]; cbn in Hp;
             [intros [= <- <-]; left; split; congruence|discriminate]
         end).
  destruct (nonzero (idle_sleep cfg)); cbn; intros [= <- <-]; right;
    cbn; rewrite ?app_nil_r; split; congruence.
Qed.

(** X14.  An iteration of the loop sleeps at most once, and never for
    zero seconds: either it does not sleep, or it sleeps [idle_sleep]
    on the idle path and hands the backoff on unchanged, or it sleeps
    the current backoff in the error handler. *)
Theorem iteration_sleeps_at_most_once :
  forall (error_backoff : Q) (w : world),
    let r := loop_body json_loads cfg error_backoff w in
    slept (snd r) = slept w
    \/ (slept (snd r) = (slept w ++ [idle_sleep cfg])%list
        /\ nonzero (idle_sleep cfg) = true
        /\ fst r = Ret error_backoff)
    \/ (slept (snd r) = (slept w ++ [error_backoff])%list
        /\ nonzero error_backoff = true).
Proof.
  intros eb w r. subst r. unfold loop_body.
  destruct (attempt json_loads cfg eb w) as [[y|[exc| |]] w0] eqn:Ha;
    cbn [fst snd].
  - apply attempt_returns_slept in Ha as [[_ Hs]|[-> Hs]]; [now left|].
    destruct (nonzero (idle_sleep cfg)) eqn:Hi.
    + right; left. auto.
    + left. now rewrite app_nil_r in Hs.
  - destruct (on_error_effect cfg eb exc w0) as [_ Hs].
    apply attempt_raises_slept in Ha. rewrite Ha in Hs.
    destruct (nonzero eb) eqn:He.
    + right; right. auto.
    + left. now rewrite app_nil_r in Hs.
  - apply attempt_raises_slept in Ha. left. exact Ha.
  - apply attempt_raises_slept in Ha. left. exact Ha.
Qed.

Hypothesis min_nonneg : 0 <= error_backoff_min cfg.
Hypothesis max_nonneg : 0 <= error_backoff_max cfg.
Hypothesis a_zero : error_backoff_min cfg == 0 \/ error_backoff_max cfg == 0.

Lemma zero_reset : reset_backoff cfg == 0.
Proof.
  rewrite (reset_backoff_eq cfg min_nonneg max_nonneg).
  destruct (Q.min_spec (error_backoff_min cfg) (error_backoff_max cfg))
    as [[? ?]|[? ?]]; destruct a_zero; lra.
Qed.

Lemma zero_grow (error_backoff : Q) :
  error_backoff == 0 -> grow_backoff cfg error_backoff == 0.
Proof.
  intros H0. unfold grow_backoff.
  pose proof (Q.max_spec (error_backoff_min cfg) (error_backoff * 2)) as Hmax.
  pose proof (Q.min_spec (error_backoff_max cfg)
                (Qmax (error_backoff_min cfg) (error_backoff * 2))) as Hmin.
  destruct Hmax as [[? ?]|[? ?]], Hmin as [[? ?]|[? ?]], a_zero; lra.
Qed.

Lemma zero_backoff_run (fuel : nat) :
  forall (error_backoff : Q) (w : world),
    error_backoff == 0 ->
    exists sleeps : list Q,
      slept (snd (while_running json_loads fuel cfg error_backoff w))
      = (slept w ++ sleeps)%list
      /\ Forall (fun d => d = idle_sleep cfg) sleeps.
Proof.
  induction fuel as [|fuel IH]; intros eb w H0; cbn [while_running].
  - exists []. cbn. rewrite app_nil_r. split; [reflexivity|constructor].
  - unfold bind at 1.
    pose proof (deliver_signal_slept w) as Hsig.
    assert (Hret : fst (deliver_signal w) = Ret tt).
    { unfold deliver_signal, _handle_signal, bind, _log_console.
      destruct (hd None (signal_script w)); reflexivity. }
    destruct (deliver_signal w) as [o ws]; cbn in Hsig, Hret; subst o.
    destruct (_running ws).
    2:{ exists []. cbn. rewrite app_nil_r. split; [congruence|constructor]. }
    unfold bind.
    pose proof (iteration_sleeps_at_most_once eb ws) as Hsl. cbn zeta in Hsl.
    destruct (loop_body json_loads cfg eb ws) as [[x|r] wb] eqn:Hb;
      cbn [fst snd] in Hsl.
    + assert (Hx : x == 0).
      { apply loop_body_backoff in Hb as [->|[->| ->]];
          [exact H0|apply zero_reset|now apply zero_grow]. }
      destruct (IH x wb Hx) as (ds & Hds & Hall).
      destruct Hsl as [Hs|[(Hs & _ & _)|(_ & Hnz)]].
      * exists ds. split; [congruence|exact Hall].
      * exists (idle_sleep cfg :: ds). rewrite Hds, Hs, Hsig, <- app_assoc.
        split; [reflexivity|constructor; auto].
      * apply nonzero_true in Hnz. contradiction.
    + cbn [snd].
      destruct Hsl as [Hs|[(Hs & _ & _)|(_ & Hnz)]].
      * exists []. rewrite app_nil_r. split; [congruence|constructor].
      * exists [idle_sleep cfg]. split; [congruence|repeat constructor].
      * apply nonzero_true in Hnz. contradiction.
Qed.

End Sleeps.

(** X15.  Setting the minimum or the maximum backoff to zero turns the
    backoff off: the backoff starts at zero and stays there, and in a
    run of whatever length every sleep of the loop is an idle sleep;
    no failure is ever followed by a backoff sleep. *)
Theorem zero_setting_disables_backoff :
  forall (json_loads : string -> option json) (float : string -> option Q)
         (w0 w1 : world) (cfg : config),
    settings float w0 = (Ret cfg, w1) ->
    error_backoff_min cfg == 0 \/ error_backoff_max cfg == 0 ->
    reset_backoff cfg == 0
    /\ forall (fuel : nat) (w : world),
         exists sleeps : list Q,
           slept (snd (while_running json_loads fuel cfg (reset_backoff cfg) w))
           = (slept w ++ sleeps)%list
           /\ Forall (fun d => d = idle_sleep cfg) sleeps.
Proof.
  intros json_loads float w0 w1 cfg Hcfg Hzero.
  apply settings_nonneg in Hcfg as (_ & Hmin & Hmax).
  pose proof (zero_reset cfg Hmin Hmax Hzero) as H0.
  split; [exact H0|].
  intros fuel w.
  apply (zero_backoff_run json_loads cfg Hmin Hmax Hzero); exact H0.
Qed.

Lemma zero_setting_disables_backoff_witness :
  let cfg := {| idle_sleep := 1 # 20; error_backoff_min := 0;
                error_backoff_max := 1 # 5 |} in
  reset_backoff cfg == 0
  /\ forall (fuel : nat) (w : world),
       exists sleeps : list Q,
         slept (snd (while_running sample_loads fuel cfg (reset_backoff cfg) w))
         = (slept w ++ sleeps)%list
         /\ Forall (fun d => d = idle_sleep cfg) sleeps.
Proof.
  apply (zero_setting_disables_backoff sample_loads sample_float
           zero_minimum zero_minimum).
  - vm_compute. reflexivity.
  - left. vm_compute. reflexivity.
Defined.

(** X16.  When the minimum is configured no larger than the maximum, a
    failing iteration doubles the backoff exactly as long as the
    double fits under the maximum, and sets it to the maximum from
    then on. *)
Theorem backoff_doubles_up_to_the_cap :
  forall (json_loads : string -> option json) (float : string -> option Q)
         (w0 w1 : world) (cfg : config) (current current' : Q) (w w' : world),
    settings float w0 = (Ret cfg, w1) ->
    error_backoff_min cfg <= error_backoff_max cfg ->
    in_bounds cfg current ->
    fails json_loads cfg (current, w) (current', w') ->
    (current * 2 <= error_backoff_max cfg -> current' == current * 2)
    /\ (error_backoff_max cfg <= current * 2 ->
        current' == error_backoff_max cfg).
Proof.
  intros json_loads float w0 w1 cfg eb eb' w w' Hcfg Hle Hin Hfail.
  apply settings_nonneg in Hcfg as (_ & Hmin & Hmax).
  apply fails_effect in Hfail as [-> _].
  destruct Hin as [Hlo Hhi].
  rewrite (Q.min_l _ _ Hle) in Hlo.
  destruct (nonzero (error_backoff_max cfg)) eqn:Hnz.
  - unfold grow_backoff.
    pose proof (Q.max_spec (error_backoff_min cfg) (eb * 2)) as Hx.
    pose proof (Q.min_spec (error_backoff_max cfg)
                  (Qmax (error_backoff_min cfg) (eb * 2))) as Hn.
    destruct Hx as [[? ?]|[? ?]], Hn as [[? ?]|[? ?]]; split; intros; lra.
  - apply nonzero_false in Hnz. split; intros; lra.
Qed.

Lemma backoff_doubles_up_to_the_cap_witness :
  2 # 20 == (1 # 20) * 2.
Proof.
  refine (proj1 (backoff_doubles_up_to_the_cap sample_loads sample_float
                   quiet quiet defaults (1 # 20) (2 # 20) three_failures _
                   eq_refl _ _ _) _).
  - unfold Qle; simpl; lia.
  - split; unfold Qle; simpl; lia.
  - eapply fails_intro;
      [ vm_compute; reflexivity | vm_compute; reflexivity
      | vm_compute; reflexivity | vm_compute; reflexivity ].
  - unfold Qle; simpl; lia.
Defined.

(** ** The pane the commands go to *)


Lemma falsy_str (s : string) : negb (truthy (JStr s)) = true <-> s = "".
Proof.
  cbn. rewrite negb_involutive. apply String.eqb_eq.
Qed.






